(** * lab_5_scraper/scraper.py: configuration, crawler and parser

    A shallow embedding of [src/lab_5_scraper/scraper.py].  Python code
    that reads files, sends requests or mutates [self] is written in a
    small monad that threads the receiver object and a log of effects and
    that can raise; [while True] takes fuel. *)

From Stdlib Require Import List String Ascii ZArith QArith Bool Lia.
Import ListNotations.

#[local] Set Warnings "-register-all".
Local Open Scope string_scope.
Local Open Scope list_scope.
Local Open Scope Z_scope.

(** ** Exceptions and outcomes *)

(** The seven exception classes of the module (lines 17-44), the built-in
    exceptions the code can run into, and the failures of the two external
    collaborators (file system / JSON decoder and HTTP transport). *)
Inductive exn : Type :=
  | IncorrectSeedURLError
  | NumberOfArticlesOutOfRangeError
  | IncorrectNumberOfArticlesError
  | IncorrectHeadersError
  | IncorrectEncodingError
  | IncorrectTimeoutError
  | IncorrectVerifyError
  | KeyError
  | TypeError
  | FileNotFoundError
  | JSONDecodeError
  | ConnectionError
  | Timeout.

(** What evaluating a piece of Python gives: a value, an exception, or
    (for [while True] only) no answer within the fuel given. *)
Inductive outcome (A : Type) : Type :=
  | Ret (a : A)
  | Raise (e : exn)
  | OutOfFuel.
Arguments Ret {A} a.
Arguments Raise {A} e.
Arguments OutOfFuel {A}.

(** ** Values read from the configuration file *)

(** A Python float as [json.load] can produce it. *)
Inductive pyfloat : Type :=
  | FNan
  | FInf (negative : bool)
  | FFin (q : Q).

(** The Python value [json.load] returns; a [dict] is its list of items. *)
Inductive json : Type :=
  | JNull
  | JBool (b : bool)
  | JInt (n : Z)
  | JFloat (f : pyfloat)
  | JStr (s : string)
  | JList (l : list json)
  | JDict (d : list (string * json)).

Fixpoint assoc {A : Type} (k : string) (d : list (string * A)) : option A :=
  match d with
  | [] => None
  | (k', v) :: rest => if String.eqb k k' then Some v else assoc k rest
  end.

(** [obj[key]] for a string key. *)
Definition py_getitem (obj : json) (key : string) : outcome json :=
  match obj with
  | JDict d => match assoc key d with Some v => Ret v | None => Raise KeyError end
  | _ => Raise TypeError
  end.

(** [obj[key, cls]]: the subscript is the tuple [(key, cls)].  A dict that
    came out of [json.load] has string keys only, so the lookup misses. *)
Definition py_getitem_tuple (obj : json) (key : string) : outcome json :=
  match obj with
  | JDict _ => Raise KeyError
  | _ => Raise TypeError
  end.

(** [isinstance(x)] with the second argument missing. *)
Definition isinstance_1 (x : json) : outcome bool := Raise TypeError.

Definition isinstance_int (x : json) : bool :=
  match x with JInt _ | JBool _ => true | _ => false end.

Definition isinstance_str (x : json) : bool :=
  match x with JStr _ => true | _ => false end.

Fixpoint chars (s : string) : list json :=
  match s with
  | EmptyString => []
  | String c rest => JStr (String c EmptyString) :: chars rest
  end.

(** The items a [for] loop over [obj] visits. *)
Definition py_iter (obj : json) : outcome (list json) :=
  match obj with
  | JList l => Ret l
  | JStr s => Ret (chars s)
  | JDict d => Ret (map (fun kv => JStr (fst kv)) d)
  | _ => Raise TypeError
  end.

(** [needle in hay] for two strings. *)
Definition is_substring (needle hay : string) : bool :=
  match String.index 0 needle hay with Some _ => true | None => false end.

Definition json_eq_str (s : string) (x : json) : bool :=
  match x with JStr s' => String.eqb s s' | _ => false end.

(** [needle in obj] for a string [needle]. *)
Definition py_contains (needle : string) (obj : json) : outcome bool :=
  match obj with
  | JStr s => Ret (is_substring needle s)
  | JList l => Ret (existsb (json_eq_str needle) l)
  | JDict d => Ret (existsb (fun kv => String.eqb needle (fst kv)) d)
  | _ => Raise TypeError
  end.

Definition Qltb (a b : Q) : bool := negb (Qle_bool b a).

Definition float_lt (f : pyfloat) (k : Z) : bool :=
  match f with
  | FNan => false
  | FInf negative => negative
  | FFin q => Qltb q (inject_Z k)
  end.

Definition float_gt (f : pyfloat) (k : Z) : bool :=
  match f with
  | FNan => false
  | FInf negative => negb negative
  | FFin q => Qltb (inject_Z k) q
  end.

(** [x < k] and [x > k] for an integer literal [k]. *)
Definition py_lt (x : json) (k : Z) : outcome bool :=
  match x with
  | JBool b => Ret (Z.b2z b <? k)
  | JInt n => Ret (n <? k)
  | JFloat f => Ret (float_lt f k)
  | _ => Raise TypeError
  end.

Definition py_gt (x : json) (k : Z) : outcome bool :=
  match x with
  | JBool b => Ret (k <? Z.b2z b)
  | JInt n => Ret (k <? n)
  | JFloat f => Ret (float_gt f k)
  | _ => Raise TypeError
  end.

(** ** Effects *)

(** What the program does to the outside world, in the order it happens:
    [open] of a file, [requests.get] of a URL.  The two remaining events
    record the crawler's progress: the value a call of [_extract_url]
    returned, and an [append] to [self.urls]. *)
Inductive event : Type :=
  | EvOpen (path : string)
  | EvGet (url : string)
  | EvExtract (url : string)
  | EvAppend (url : string).

(** The state in which a computation stops: its outcome, the receiver
    object and the log.  Python keeps both when an exception leaves. *)
Record Run (S A : Type) : Type := mkRun
  { result : outcome A; self : S; trace : list event }.
Arguments mkRun {S A}.
Arguments result {S A}.
Arguments self {S A}.
Arguments trace {S A}.

Definition M (S A : Type) : Type := S -> list event -> Run S A.

Definition ret {S A} (a : A) : M S A := fun s t => mkRun (Ret a) s t.

Definition raise {S A} (e : exn) : M S A := fun s t => mkRun (Raise e) s t.

Definition out_of_fuel {S A} : M S A := fun s t => mkRun OutOfFuel s t.

Definition lift {S A} (o : outcome A) : M S A := fun s t => mkRun o s t.

Definition bind {S A B} (m : M S A) (f : A -> M S B) : M S B :=
  fun s t =>
    let r := m s t in
    match result r with
    | Ret a => f a (self r) (trace r)
    | Raise e => mkRun (Raise e) (self r) (trace r)
    | OutOfFuel => mkRun OutOfFuel (self r) (trace r)
    end.

Definition emit {S} (ev : event) : M S unit :=
  fun s t => mkRun (Ret tt) s (t ++ [ev]).

Definition get_self {S} : M S S := fun s t => mkRun (Ret s) s t.

Definition put_self {S} (s' : S) : M S unit := fun _ t => mkRun (Ret tt) s' t.

Declare Scope py_scope.
Delimit Scope py_scope with py.
Notation "x <- m ;; k" := (bind m (fun x => k))
  (at level 61, m at next level, right associativity) : py_scope.
Notation "m ;; k" := (bind m (fun _ => k))
  (at level 61, right associativity) : py_scope.
Local Open Scope py_scope.

(** [for x in l: body x] *)
Fixpoint for_each {S A} (l : list A) (body : A -> M S unit) : M S unit :=
  match l with
  | [] => ret tt
  | x :: rest => body x ;; for_each rest body
  end.

(** [while True: body], at most [fuel] rounds. *)
Fixpoint while_true {S} (fuel : nat) (body : M S unit) : M S unit :=
  match fuel with
  | O => out_of_fuel
  | Datatypes.S n => body ;; while_true n body
  end.

(** [a or b], [b] evaluated only when [a] is false. *)
Definition py_or {S} (a : bool) (b : M S bool) : M S bool :=
  if a then ret true else b.

(** ** Config *)

(** Modelled from the spec: the class [ConfigDTO] of [core_utils.config_dto]
    is imported by the module and is not part of its sources.  Section 6 of
    the specification gives the fields of the configuration record and
    their types; the attribute names are the ones [Config.__init__] reads. *)
Record ConfigDTO : Type := mkConfigDTO
  { dto_seed_urls : list string;
    dto_num_articles : Z;
    dto_headers : list (string * string);
    dto_encoding : string;
    dto_timeout : Z;
    dto_should_verify_certificate : bool;
    dto_headless_mode : bool }.

Definition as_str (x : json) : outcome string :=
  match x with JStr s => Ret s | _ => Raise TypeError end.

Definition as_int (x : json) : outcome Z :=
  match x with JInt n => Ret n | _ => Raise TypeError end.

Definition as_bool (x : json) : outcome bool :=
  match x with JBool b => Ret b | _ => Raise TypeError end.

Definition obind {A B} (o : outcome A) (f : A -> outcome B) : outcome B :=
  match o with
  | Ret a => f a
  | Raise e => Raise e
  | OutOfFuel => OutOfFuel
  end.

Fixpoint all_of {A B} (f : A -> outcome B) (l : list A) : outcome (list B) :=
  match l with
  | [] => Ret []
  | x :: rest =>
      obind (f x) (fun y => obind (all_of f rest) (fun ys => Ret (y :: ys)))
  end.

Definition as_str_list (x : json) : outcome (list string) :=
  match x with JList l => all_of as_str l | _ => Raise TypeError end.

Definition as_str_map (x : json) : outcome (list (string * string)) :=
  match x with
  | JDict d =>
      all_of (fun kv => obind (as_str (snd kv)) (fun v => Ret (fst kv, v))) d
  | _ => Raise TypeError
  end.

(** Modelled from the spec: the constructor of the absent class, called
    with the items of [config_data] as keyword arguments (line 80).  It
    takes the seven fields of section 6;
    a source that is not a record of these fields with these types has no
    image here. *)
Definition ConfigDTO_init (config_data : json) : outcome ConfigDTO :=
  obind (obind (py_getitem config_data "seed_urls") as_str_list) (fun seed_urls =>
  obind (obind (py_getitem config_data "total_articles_to_find_and_parse") as_int) (fun num =>
  obind (obind (py_getitem config_data "headers") as_str_map) (fun headers =>
  obind (obind (py_getitem config_data "encoding") as_str) (fun encoding =>
  obind (obind (py_getitem config_data "timeout") as_int) (fun timeout =>
  obind (obind (py_getitem config_data "should_verify_certificate") as_bool) (fun verify =>
  obind (obind (py_getitem config_data "headless_mode") as_bool) (fun headless =>
  Ret (mkConfigDTO seed_urls num headers encoding timeout verify headless)))))))).

(** The attributes of a [Config] object other than [path_to_config]. *)
Record Config : Type := mkConfig
  { path_to_config : string;
    _encoding : string;
    _headers : list (string * string);
    _headless_mode : bool;
    _seed_urls : list string;
    _timeout : Z;
    _num_articles : Z;
    _should_varify_certificate : bool }.

(** The literal the seed URL check looks for (line 89). *)
Definition SEED_PATTERN : string := "https?://(www.)?".

Section FileSystem.

(** What [open(path, encoding='UTF-8')] followed by [json.load] gives. *)
Variable fs : string -> outcome json.

Context {S : Type}.

(** [with open(path, encoding='UTF-8') as file: json.load(file)] *)
Definition open_json_load (path : string) : M S json :=
  emit (EvOpen path) ;; lift (fs path).

(** [Config._validate_config_content], lines 82-113. *)
Definition _validate_config_content (path : string) : M S unit :=
  config_data <- open_json_load path ;;
  seed_urls <- lift (py_getitem config_data "seed_urls") ;;
  items <- lift (py_iter seed_urls) ;;
  for_each items (fun url =>
    found <- lift (py_contains SEED_PATTERN url) ;;
    if negb found then raise IncorrectSeedURLError else ret tt) ;;

  n <- lift (py_getitem config_data "total_articles_to_find_and_parse") ;;
  below <- lift (py_lt n 1) ;;
  out_of_range <- py_or below
    (n <- lift (py_getitem config_data "total_articles_to_find_and_parse") ;;
     lift (py_gt n 150)) ;;
  (if out_of_range then raise NumberOfArticlesOutOfRangeError else ret tt) ;;

  n <- lift (py_getitem config_data "total_articles_to_find_and_parse") ;;
  incorrect <- py_or (negb (isinstance_int n))
    (n <- lift (py_getitem config_data "total_articles_to_find_and_parse") ;;
     lift (py_lt n 0)) ;;
  (if incorrect then raise IncorrectNumberOfArticlesError else ret tt) ;;

  headers <- lift (py_getitem_tuple config_data "headers") ;;
  is_dict <- lift (isinstance_1 headers) ;;
  (if negb is_dict then raise IncorrectHeadersError else ret tt) ;;

  encoding <- lift (py_getitem config_data "encoding") ;;
  (if negb (isinstance_str encoding) then raise IncorrectEncodingError else ret tt) ;;

  timeout <- lift (py_getitem config_data "timeout") ;;
  bad_timeout <- py_or (negb (isinstance_int timeout))
    (timeout <- lift (py_getitem config_data "timeout") ;;
     below60 <- lift (py_lt timeout 60) ;;
     in_range <- (if below60
                  then timeout <- lift (py_getitem config_data "timeout") ;;
                       lift (py_gt timeout 0)
                  else ret false) ;;
     ret (negb in_range)) ;;
  (if bad_timeout then raise IncorrectTimeoutError else ret tt) ;;

  verify <- lift (py_getitem_tuple config_data "should_verify_sertificate") ;;
  is_bool <- lift (isinstance_1 verify) ;;
  if negb is_bool then raise IncorrectVerifyError else ret tt.

(** [Config._extract_config_content], lines 71-80. *)
Definition _extract_config_content (path : string) : M S ConfigDTO :=
  config_data <- open_json_load path ;;
  lift (ConfigDTO_init config_data).

(** The assignments of [Config.__init__], lines 58 and 61-67. *)
Definition Config_fields (path : string) (config : ConfigDTO) : Config :=
  {| path_to_config := path;
     _encoding := dto_encoding config;
     _headers := dto_headers config;
     _headless_mode := dto_headless_mode config;
     _seed_urls := dto_seed_urls config;
     _timeout := dto_timeout config;
     _num_articles := dto_num_articles config;
     _should_varify_certificate := dto_should_verify_certificate config |}.

(** [Config.__init__], lines 51-67. *)
Definition Config_init (path : string) : M S Config :=
  _validate_config_content path ;;
  config <- _extract_config_content path ;;
  ret (Config_fields path config).

End FileSystem.

(** The accessors, lines 120-181. *)
Definition get_seed_urls (c : Config) : list string := _seed_urls c.
Definition get_num_articles (c : Config) : Z := _num_articles c.
Definition get_headers (c : Config) : list (string * string) := _headers c.
Definition get_encoding (c : Config) : string := _encoding c.
Definition get_timeout (c : Config) : Z := _timeout c.
Definition get_verify_certificate (c : Config) : bool := _should_varify_certificate c.

(** [get_headless_mode] has a docstring and no statement: a call gives
    Python's [None], here [None : option bool]. *)
Definition get_headless_mode (c : Config) : option bool := None.

(** ** The collaborators of the crawler *)

(** The part of a [requests] response the module reads. *)
Record Response : Type := mkResponse { text : string }.

(** An element of a parsed document. *)
Inductive Tag : Type :=
  | Element (name : string) (attrs : list (string * string)) (contents : list Tag).

(** [tag.find(name)]: the first element of that name below [tag]. *)
Fixpoint Tag_find (tag : Tag) (name : string) : option Tag :=
  match tag with
  | Element _ _ contents =>
      (fix first_in (l : list Tag) : option Tag :=
         match l with
         | [] => None
         | child :: rest =>
             let 'Element n _ _ := child in
             if String.eqb n name then Some child
             else match Tag_find child name with
                  | Some found => Some found
                  | None => first_in rest
                  end
         end) contents
  end.

(** A [bs4.BeautifulSoup] object, by the two expressions the module
    evaluates on one.

    [soup_findall] is the value of
    [article_bs.findall('div', {'class': 'item__title'})] (line 228).
    The library has no method [findall]: the attribute lookup answers with
    the document's first [<findall>] element or with [None], so the call
    either raises or returns the elements found below that element.

    [soup_find name attrs] is [article_soup.find(name, **attrs)]. *)
Record BeautifulSoup : Type := mkSoup
  { soup_findall : outcome (list Tag);
    soup_find : string -> list (string * string) -> option Tag }.

(** ['a'['href']]: a string subscripted by a string. *)
Definition str_getitem (s key : string) : outcome string := Raise TypeError.

(** [base_link += href] where [href] is what [Tag.find] returned, an
    element or [None]: neither can be added to a string. *)
Definition str_iadd (s : string) (x : option Tag) : outcome string := Raise TypeError.

Definition isinstance_str_of_str (s : string) : bool := true.

Definition mem (u : string) (l : list string) : bool := existsb (String.eqb u) l.

(** ** Crawler *)

Record Crawler : Type := mkCrawler { urls : list string; config : Config }.

(** [Crawler.__init__], lines 207-215. *)
Definition Crawler_init (config : Config) : Crawler :=
  {| urls := []; config := config |}.

Definition BASE_LINK : string := "https://край-дорогобужский.рф".

(** The [for art in articles] loop of [_extract_url], lines 229-234. *)
Fixpoint _extract_url_loop (self_urls : list string) (base_link : string)
    (articles : list Tag) : outcome string :=
  match articles with
  | [] => Ret ""
  | art :: rest =>
      obind (str_getitem "a" "href") (fun key =>
      let href := Tag_find art key in
      obind (str_iadd base_link href) (fun base_link =>
      if isinstance_str_of_str base_link && negb (mem base_link self_urls)
      then Ret base_link
      else _extract_url_loop self_urls base_link rest))
  end.

(** [Crawler._extract_url], lines 217-234. *)
Definition _extract_url (article_bs : BeautifulSoup) : M Crawler string :=
  self <- get_self ;;
  let base_link := BASE_LINK in
  articles <- lift (soup_findall article_bs) ;;
  lift (_extract_url_loop (urls self) base_link articles).

(** [self.urls.append(url)] *)
Definition urls_append (url : string) : M Crawler unit :=
  self <- get_self ;;
  put_self {| urls := urls self ++ [url]; config := config self |} ;;
  emit (EvAppend url).

(** [Crawler.get_search_urls], lines 248-255. *)
Definition get_search_urls : M Crawler (list string) :=
  self <- get_self ;;
  ret (get_seed_urls (config self)).

Section Network.

(** [requests.get(url=, headers=, timeout=, verify=)]: a response or an
    exception, chosen by the outside world; it may depend on everything
    that happened before. *)
Variable requests_get :
  list event -> string -> list (string * string) -> Z -> bool -> outcome Response.

(** [BeautifulSoup(markup, features)] *)
Variable BeautifulSoup_init : string -> string -> BeautifulSoup.

(** [make_request], lines 183-197. *)
Definition make_request {S} (url : string) (config : Config) : M S Response :=
  fun s t =>
    mkRun (requests_get t url (get_headers config) (get_timeout config)
             (get_verify_certificate config))
          s (t ++ [EvGet url]).

(** The body of the [while True] loop, lines 244-246. *)
Definition find_articles_round (response : Response) : M Crawler unit :=
  extracted_url <- _extract_url (BeautifulSoup_init (text response) "lxml") ;;
  emit (EvExtract extracted_url) ;;
  self <- get_self ;;
  if negb (mem extracted_url (urls self))
  then urls_append extracted_url
  else ret tt.

(** The body of the [for seed_url] loop, lines 241-246. *)
Definition find_articles_seed (fuel : nat) (seed_url : string) : M Crawler unit :=
  self <- get_self ;;
  response <- make_request seed_url (config self) ;;
  self <- get_self ;;
  if Z.of_nat (List.length (urls self)) <? get_num_articles (config self)
  then while_true fuel (find_articles_round response)
  else ret tt.

(** [Crawler.find_articles], lines 236-246. *)
Definition find_articles (fuel : nat) : M Crawler unit :=
  seeds <- get_search_urls ;;
  for_each seeds (find_articles_seed fuel).

End Network.

(** ** HTMLParser *)

(** Modelled from the spec: [datetime.datetime], the declared result of
    [unify_date_format]; the module does not import it. *)
Record datetime : Type := mkDatetime
  { year : Z; month : Z; day : Z; hour : Z; minute : Z; second : Z }.

(** Modelled from the spec: the class [Article] of
    [core_utils.article.article] is not part of the sources.  Section 3
    lists what an article record holds: source URL, identifier, body text
    (possibly empty), and the optional date, title and author. *)
Record Article : Type := mkArticle
  { art_url : string;
    art_id : Z;
    art_text : string;
    art_date : option datetime;
    art_title : option string;
    art_author : option string }.

(** Modelled from the spec: [Article(url, article_id)], a record with
    nothing extracted yet. *)
Definition Article_init (url : string) (article_id : Z) : Article :=
  mkArticle url article_id "" None None None.

Record HTMLParser : Type := mkHTMLParser
  { full_url : string;
    article_id : Z;
    parser_config : Config;
    article : Article }.

(** [HTMLParser.__init__], lines 266-278. *)
Definition HTMLParser_init (full_url : string) (article_id : Z) (config : Config)
    : HTMLParser :=
  mkHTMLParser full_url article_id config (Article_init full_url article_id).

(** [HTMLParser._fill_article_with_text], lines 280-287: the element found
    is bound to a local name and the method ends. *)
Definition _fill_article_with_text (article_soup : BeautifulSoup) : M HTMLParser unit :=
  let content := soup_find article_soup "div" [("clas", "item-content")] in
  ret tt.

(** [HTMLParser._fill_article_with_meta_information], lines 289-295. *)
Definition _fill_article_with_meta_information (article_soup : BeautifulSoup)
    : M HTMLParser unit :=
  ret tt.




(** [HTMLParser.parse], lines 308-314: a docstring and no statement. *)
Definition parse : M HTMLParser (option Article) := ret None.

(** ** Sample inputs *)

(** A configuration source with the seven fields of the specification. *)
Definition source (seed_urls total headers encoding timeout verify : json) : json :=
  JDict [("seed_urls", seed_urls);
         ("total_articles_to_find_and_parse", total);
         ("headers", headers);
         ("encoding", encoding);
         ("timeout", timeout);
         ("should_verify_certificate", verify);
         ("headless_mode", JBool false)].

Definition some_headers : json := JDict [("User-Agent", JStr "Mozilla/5.0")].

(** Every field as the specification wants it. *)
Definition well_formed_source : json :=
  source (JList [JStr "https://example.com/list"]) (JInt 3) some_headers
         (JStr "utf-8") (JInt 5) (JBool true).

(** The same with a seed URL that carries the text of the pattern. *)
Definition literal_seed : json := JList [JStr "https?://(www.)?example.com/list"].

Definition literal_source : json :=
  source literal_seed (JInt 3) some_headers (JStr "utf-8") (JInt 5) (JBool true).

(** A file system that holds source [j] under every path. *)
Definition holding (j : json) : string -> outcome json := fun _ => Ret j.

(** The exception class docstring's pattern [https?://(www.)?] read as a
    regular expression matched at the start of the URL: the optional group
    may be empty, so a URL matches when it starts with [http://] or with
    [https://]. *)
Definition matches_seed_pattern (url : string) : bool :=
  String.prefix "http://" url || String.prefix "https://" url.

(** A configuration object with two seed URLs and a quota of three. *)
Definition demo_config : Config :=
  {| path_to_config := "scrapper_config.json";
     _encoding := "utf-8";
     _headers := [("User-Agent", "Mozilla/5.0")];
     _headless_mode := false;
     _seed_urls := ["https://example.com/list"; "https://example.com/list2"];
     _timeout := 5;
     _num_articles := 3;
     _should_varify_certificate := true |}.

(** A site on which every request is answered with the same markup. *)
Definition serving (markup : string) :
    list event -> string -> list (string * string) -> Z -> bool -> outcome Response :=
  fun _ _ _ _ _ => Ret (mkResponse markup).

(** A site that cannot be reached. *)
Definition unreachable :
    list event -> string -> list (string * string) -> Z -> bool -> outcome Response :=
  fun _ _ _ _ _ => Raise ConnectionError.

(** The parser on the two documents used below.  In
    ["<findall></findall>"] the attribute lookup of line 228 finds the
    element of that name, and the search below it finds no [div]; in any
    other document here there is no such element, and calling [None]
    raises. *)
Definition demo_parser (markup features : string) : BeautifulSoup :=
  if String.eqb markup "<findall></findall>"
  then mkSoup (Ret []) (fun _ _ => None)
  else mkSoup (Raise TypeError) (fun _ _ => None).

(** ** Vocabulary of the properties *)

(** The URLs returned by [_extract_url], oldest first. *)
Definition extracted (t : list event) : list string :=
  flat_map (fun ev => match ev with EvExtract u => [u] | _ => [] end) t.

(** The URLs appended to [self.urls], oldest first. *)
Definition appended (t : list event) : list string :=
  flat_map (fun ev => match ev with EvAppend u => [u] | _ => [] end) t.

(** The URLs requested, oldest first. *)
Definition requested (t : list event) : list string :=
  flat_map (fun ev => match ev with EvGet u => [u] | _ => [] end) t.

Definition is_get (ev : event) : bool :=
  match ev with EvGet _ => true | _ => false end.

(** The distinct elements of [l], each at the place of its first
    occurrence. *)
Fixpoint first_seen (l : list string) : list string :=
  match l with
  | [] => []
  | x :: rest => x :: filter (fun y => negb (String.eqb x y)) (first_seen rest)
  end.

(** [m] leaves its receiver alone and adds only reads of [path] to the log. *)
Definition reads_only {S A} (path : string) (m : M S A) : Prop :=
  forall s t,
    self (m s t) = s /\
    exists evs, trace (m s t) = t ++ evs /\ Forall (fun ev => ev = EvOpen path) evs.

(** [m] sends no request. *)
Definition sends_nothing {S A} (m : M S A) : Prop :=
  forall s t, exists evs, trace (m s t) = t ++ evs /\ requested evs = [].

(** [I] holds where [m] stops if it held where [m] started. *)
Definition stable {S A} (I : S -> list event -> Prop) (m : M S A) : Prop :=
  forall s t, I s t -> I (self (m s t)) (trace (m s t)).

(** What holds of a crawler for configuration [cfg] at every point of
    [find_articles]. *)
Definition crawl_inv (cfg : Config) (s : Crawler) (t : list event) : Prop :=
  config s = cfg /\
  urls s = first_seen (extracted t) /\
  urls s = appended t /\
  Forall (fun u => u = "") (urls s) /\
  (urls s <> [] -> 1 <= get_num_articles cfg).

(** What a call of [_extract_url] gives, by the document. *)
Definition extract_outcome (article_bs : BeautifulSoup) : outcome string :=
  match soup_findall article_bs with
  | Ret [] => Ret ""
  | Ret (_ :: _) => Raise TypeError
  | Raise e => Raise e
  | OutOfFuel => OutOfFuel
  end.

(** A site whose first listing answers and whose second cannot be reached. *)
Definition flaky :
    list event -> string -> list (string * string) -> Z -> bool -> outcome Response :=
  fun _ url _ _ _ =>
    if String.eqb url "https://example.com/list"
    then Ret (mkResponse "<findall></findall>")
    else Raise ConnectionError.

(** A crawler that already holds as many URLs as [demo_config] asks for. *)
Definition quota_met : Crawler :=
  {| urls := ["https://example.com/a"; "https://example.com/b"; "https://example.com/c"];
     config := demo_config |}.

(** ** The output directory *)

(** [prepare_environment] reaches the file system through [pathlib] and
    [shutil].  The file system is taken as a tree of regular files and
    directories: paths are absolute, there are no symbolic links, and no
    operation is refused for lack of permission.  The root itself is
    never the directory to prepare. *)

(** An absolute path, by its components from the root; the empty list is
    the root. *)
Definition Path : Type := list string.

Inductive node : Type := File | Dir.

(** What is found at each path. *)
Definition filesystem : Type := Path -> option node.

(** [a] is [q] or lies above it. *)
Fixpoint is_prefix (a q : Path) : bool :=
  match a, q with
  | [], _ => true
  | _ :: _, [] => false
  | x :: a', y :: q' => String.eqb x y && is_prefix a' q'
  end.

(** The paths above [p], the root first. *)
Fixpoint proper_prefixes (p : Path) : list Path :=
  match p with
  | [] => []
  | x :: p' => [] :: map (cons x) (proper_prefixes p')
  end.

Definition is_file (n : option node) : bool :=
  match n with Some File => true | _ => false end.

Definition is_present (n : option node) : bool :=
  match n with Some _ => true | None => false end.

(** The exceptions of the file operations, beside the built-in ones. *)
Inductive os_exn : Type :=
  | NotADirectoryError
  | FileExistsError
  | AttributeError
  | Builtin (e : exn).

(** A computation on the file system: a value or an exception, and the
    file system it leaves. *)
Definition FS (A : Type) : Type := filesystem -> (A + os_exn) * filesystem.

Definition fs_ret {A} (a : A) : FS A := fun fs => (inl a, fs).

Definition fs_bind {A B} (m : FS A) (f : A -> FS B) : FS B :=
  fun fs =>
    match m fs with
    | (inl a, fs') => f a fs'
    | (inr e, fs') => (inr e, fs')
    end.

(** [Path.exists()] *)
Definition Path_exists (p : Path) : FS bool :=
  fun fs => (inl (is_present (fs p)), fs).

(** [shutil.rmtree(p)]: a directory goes with all that is below it; a
    regular file or a missing path is an error. *)
Definition shutil_rmtree (p : Path) : FS unit :=
  fun fs =>
    match fs p with
    | Some Dir => (inl tt, fun q => if is_prefix p q then None else fs q)
    | Some File => (inr NotADirectoryError, fs)
    | None => (inr (Builtin FileNotFoundError), fs)
    end.

(** [Path.mkdir(parents=True)], with [exist_ok] left at [False]: the
    directory and the missing ones above it are made; a path that exists,
    or a regular file on the way, is an error. *)
Definition Path_mkdir_parents (p : Path) : FS unit :=
  fun fs =>
    match fs p with
    | Some _ => (inr FileExistsError, fs)
    | None =>
        if existsb (fun a => is_file (fs a)) (proper_prefixes p)
        then (inr NotADirectoryError, fs)
        else (inl tt,
              fun q =>
                if is_prefix q p
                then match fs q with Some n => Some n | None => Some Dir end
                else fs q)
    end.

(** The argument of [prepare_environment]: a [pathlib.Path] or a [str]. *)
Inductive path_arg : Type :=
  | APath (p : Path)
  | AStr (s : string).

(** [prepare_environment], lines 317-326.  A [str] has no method
    [exists]. *)
Definition prepare_environment (base_path : path_arg) : FS unit :=
  match base_path with
  | AStr _ => fun fs => (inr AttributeError, fs)
  | APath p =>
      fs_bind (Path_exists p) (fun found =>
      fs_bind (if found then shutil_rmtree p else fs_ret tt) (fun _ =>
      Path_mkdir_parents p))
  end.

(** Whatever exists has directories above it. *)
Definition well_formed (fs : filesystem) : Prop :=
  forall a q, is_prefix a q = true -> fs q <> None -> a = q \/ fs a = Some Dir.

(** ** More sample inputs *)

(** The file system of a listing: the first entry of a path counts. *)
Fixpoint path_eqb (p q : Path) : bool :=
  match p, q with
  | [], [] => true
  | x :: p', y :: q' => String.eqb x y && path_eqb p' q'
  | _, _ => false
  end.

Fixpoint listed (entries : list (Path * node)) (q : Path) : option node :=
  match entries with
  | [] => None
  | (p, n) :: rest => if path_eqb p q then Some n else listed rest q
  end.

Definition is_dir (n : option node) : bool :=
  match n with Some Dir => true | _ => false end.

(** Every path of the listing has directories of the listing above it. *)
Definition closed_listing (entries : list (Path * node)) : bool :=
  forallb (fun e => forallb (fun a => is_dir (listed entries a)) (proper_prefixes (fst e)))
          entries.

Definition sample_tree : list (Path * node) :=
  [ ([], Dir);
    (["tmp"], Dir);
    (["tmp"; "articles"], Dir);
    (["tmp"; "articles"; "1_raw.txt"], File);
    (["tmp"; "notes.txt"], File) ].

(** The items of a loaded JSON object. *)
Definition items_of (j : json) : list (string * json) :=
  match j with JDict d => d | _ => [] end.

(** A source whose seed URLs are one string instead of a list. *)
Definition one_string_source : json :=
  source (JStr "https://example.com/list") (JInt 3) some_headers
         (JStr "utf-8") (JInt 5) (JBool true).

(** A source whose number of articles is 2.5. *)
Definition fractional_source : json :=
  source literal_seed (JFloat (FFin (5 # 2))) some_headers
         (JStr "utf-8") (JInt 5) (JBool true).

(** A listing page on which the search of line 228 finds one element. *)
Definition listing_markup : string :=
  "<findall><div class='item__title'><a href='/news/1'>News</a></div></findall>".

Definition listing_parser (markup features : string) : BeautifulSoup :=
  if String.eqb markup listing_markup
  then mkSoup (Ret [Element "div" [("class", "item__title")]
                      [Element "a" [("href", "/news/1")] []]])
              (fun _ _ => None)
  else demo_parser markup features.

(** ** More vocabulary of the properties *)

(** [m] touches neither its receiver nor the log; what it returns is in
    [R], what it raises is in [E], and it needs no fuel. *)
Definition checks {S A} (R : A -> Prop) (E : exn -> Prop) (m : M S A) : Prop :=
  forall s t, exists o,
    m s t = mkRun o s t /\
    match o with Ret a => R a | Raise e => E e | OutOfFuel => False end.

(** The exceptions the validation itself can end in. *)
Definition validation_errors : list exn :=
  [KeyError; TypeError; IncorrectSeedURLError; NumberOfArticlesOutOfRangeError;
   IncorrectNumberOfArticlesError].

(** Where the validation ends for a source whose seed URLs pass, by the
    value given as number of articles. *)
Definition count_verdict (total : json) : exn :=
  match total with
  | JBool b => if b then KeyError else NumberOfArticlesOutOfRangeError
  | JInt n =>
      if (n <? 1) || (150 <? n) then NumberOfArticlesOutOfRangeError else KeyError
  | JFloat f =>
      if float_lt f 1 || float_gt f 150 then NumberOfArticlesOutOfRangeError
      else IncorrectNumberOfArticlesError
  | _ => TypeError
  end.

(** * Properties *)

(** ** The monad *)

Lemma bind_run {S A B} (m : M S A) (f : A -> M S B) s t :
  bind m f s t =
  match result (m s t) with
  | Ret a => f a (self (m s t)) (trace (m s t))
  | Raise e => mkRun (Raise e) (self (m s t)) (trace (m s t))
  | OutOfFuel => mkRun OutOfFuel (self (m s t)) (trace (m s t))
  end.
Proof. reflexivity. Qed.

Lemma result_bind_Ret {S A B} (m : M S A) (f : A -> M S B) s t b :
  result (bind m f s t) = Ret b ->
  exists a s' t', result (m s t) = Ret a /\ result (f a s' t') = Ret b.
Proof.
  rewrite bind_run. destruct (result (m s t)) as [a | e |]; simpl; intros H.
  - exists a, (self (m s t)), (trace (m s t)). split; [reflexivity | exact H].
  - discriminate H.
  - discriminate H.
Qed.

(** [while True] has no way out but an exception. *)
Lemma while_true_never_returns {S} fuel (body : M S unit) s t :
  result (while_true fuel body s t) <> Ret tt.
Proof.
  revert s t. induction fuel as [| n IH]; intros s t; simpl.
  - discriminate.
  - rewrite bind_run. destruct (result (body s t)); simpl.
    + apply IH.
    + discriminate.
    + discriminate.
Qed.

(** ** Config: what a computation may do to the world *)

Section ReadsOnly.

Context {S : Type} (path : string).

Lemma reads_only_lift {A} (o : outcome A) : reads_only (S:=S) path (lift o).
Proof.
  intros s t. split; [reflexivity |].
  exists []. split; [symmetry; apply app_nil_r | constructor].
Qed.

Lemma reads_only_ret {A} (a : A) : reads_only (S:=S) path (ret a).
Proof. exact (reads_only_lift (Ret a)). Qed.

Lemma reads_only_raise {A} (e : exn) : reads_only (S:=S) (A:=A) path (raise e).
Proof. exact (reads_only_lift (Raise e)). Qed.

Lemma reads_only_open : reads_only (S:=S) path (emit (EvOpen path)).
Proof.
  intros s t. split; [reflexivity |].
  exists [EvOpen path]. split; [reflexivity | repeat constructor].
Qed.

Lemma reads_only_bind {A B} (m : M S A) (f : A -> M S B) :
  reads_only path m -> (forall a, reads_only path (f a)) ->
  reads_only path (bind m f).
Proof.
  intros Hm Hf s t. rewrite bind_run.
  destruct (Hm s t) as (Hs & evs & Ht & Hevs).
  destruct (result (m s t)) as [a | e |]; simpl.
  - destruct (Hf a (self (m s t)) (trace (m s t))) as (Hs' & evs' & Ht' & Hevs').
    split; [congruence |].
    exists (evs ++ evs'). split.
    + rewrite Ht', Ht. symmetry. apply app_assoc.
    + apply Forall_app. split; assumption.
  - split; [assumption |]. exists evs. split; assumption.
  - split; [assumption |]. exists evs. split; assumption.
Qed.

Lemma reads_only_if {A} (b : bool) (m1 m2 : M S A) :
  reads_only path m1 -> reads_only path m2 ->
  reads_only path (if b then m1 else m2).
Proof. destruct b; intros; assumption. Qed.

Lemma reads_only_or (a : bool) (b : M S bool) :
  reads_only path b -> reads_only path (py_or a b).
Proof. intros Hb. unfold py_or. apply reads_only_if; [apply reads_only_ret | exact Hb]. Qed.

Lemma reads_only_for_each {A} (l : list A) (body : A -> M S unit) :
  (forall x, reads_only path (body x)) -> reads_only path (for_each l body).
Proof.
  intros Hbody. induction l as [| x rest IH]; simpl.
  - apply reads_only_ret.
  - apply reads_only_bind; [apply Hbody | intros _; exact IH].
Qed.

End ReadsOnly.

Ltac reads_only_step :=
  first
    [ apply reads_only_bind; [| intros ? ]
    | apply reads_only_for_each; intros ?
    | apply reads_only_or
    | apply reads_only_if
    | apply reads_only_open
    | apply reads_only_ret
    | apply reads_only_raise
    | apply reads_only_lift ].

Lemma reads_only_validate {S} fs path :
  reads_only (S:=S) path (_validate_config_content fs path).
Proof. unfold _validate_config_content, open_json_load. repeat reads_only_step. Qed.

Lemma reads_only_extract {S} fs path :
  reads_only (S:=S) path (_extract_config_content fs path).
Proof. unfold _extract_config_content, open_json_load. repeat reads_only_step. Qed.

(** No source gets through the validation: whatever passes the checks on
    the seed URLs and on the number of articles is stopped by the
    subscript of line 102. *)
Lemma validate_never_returns {S} fs path (s : S) t :
  result (_validate_config_content fs path s t) <> Ret tt.
Proof.
  unfold _validate_config_content. intros H.
  repeat (apply result_bind_Ret in H; destruct H as (? & ? & ? & ? & H)).
  match goal with
  | Hk : result (lift (py_getitem_tuple ?x _) _ _) = Ret _ |- _ =>
      destruct x; discriminate Hk
  end.
Qed.

(** So [Config(path)] never gives an object. *)
Lemma Config_init_never_returns {S} fs path (s : S) t c :
  result (Config_init fs path s t) <> Ret c.
Proof.
  unfold Config_init. intros H.
  apply result_bind_Ret in H. destruct H as ([] & _ & _ & H & _).
  exact (validate_never_returns fs path s t H).
Qed.

(** ** Config: the claims *)

(** C4 (the code departs from the claim).  The claim: each of the seven
    invalid fields makes loading fail with its own error kind, no rule is
    skipped, and a source whose fields are all valid loads.  The code: a
    source that gets past the checks on the seed URLs and on the number of
    articles is stopped by [KeyError] at the headers rule, whether its
    headers are a mapping or not; the rules on encoding, timeout and
    verify flag are never reached; a number of articles given as a string
    ends in [TypeError]. *)
Theorem validate_config_content_stops_at_headers :
  let validate j :=
    result (_validate_config_content (holding j) "scrapper_config.json" tt []) in
  validate literal_source = Raise KeyError /\
  validate (source literal_seed (JInt 3) (JList []) (JStr "utf-8") (JInt 5) (JBool true))
    = Raise KeyError /\
  validate (source literal_seed (JInt 3) some_headers (JInt 8) (JInt 5) (JBool true))
    = Raise KeyError /\
  validate (source literal_seed (JInt 3) some_headers (JStr "utf-8") (JInt 60) (JBool true))
    = Raise KeyError /\
  validate (source literal_seed (JInt 3) some_headers (JStr "utf-8") (JInt 5) (JStr "yes"))
    = Raise KeyError /\
  validate (source literal_seed (JStr "3") some_headers (JStr "utf-8") (JInt 5) (JBool true))
    = Raise TypeError.
Proof. vm_compute. repeat split. Qed.

(** The rules that come before the headers rule do answer with their own
    error kinds. *)
Example validate_first_rules :
  let validate j :=
    result (_validate_config_content (holding j) "scrapper_config.json" tt []) in
  validate (source literal_seed (JInt 0) some_headers (JStr "utf-8") (JInt 5) (JBool true))
    = Raise NumberOfArticlesOutOfRangeError /\
  validate (source literal_seed (JInt 151) some_headers (JStr "utf-8") (JInt 5) (JBool true))
    = Raise NumberOfArticlesOutOfRangeError /\
  validate (source literal_seed (JFloat (FFin (5 # 2))) some_headers (JStr "utf-8") (JInt 5)
              (JBool true))
    = Raise IncorrectNumberOfArticlesError.
Proof. vm_compute. repeat split. Qed.

(** C5 (the code departs from the claim).  The claim: a seed URL is
    rejected exactly when it fails to match the URL pattern, and
    ["https://example.com/list"] is accepted.  The code looks for the text
    of the pattern inside the URL: the well-formed URL, which matches the
    pattern, is rejected with the seed URL error, and a string that does
    not match but quotes the pattern passes the seed rule (the error it
    meets belongs to the next rule). *)
Theorem seed_url_check_is_substring_test :
  let validate j :=
    result (_validate_config_content (holding j) "scrapper_config.json" tt []) in
  matches_seed_pattern "https://example.com/list" = true /\
  validate well_formed_source = Raise IncorrectSeedURLError /\
  matches_seed_pattern "see https?://(www.)? below" = false /\
  validate (source (JList [JStr "see https?://(www.)? below"]) (JInt 0) some_headers
              (JStr "utf-8") (JInt 5) (JBool true))
    = Raise NumberOfArticlesOutOfRangeError.
Proof. vm_compute. repeat split. Qed.

(** C6.  Whatever the configuration source holds, constructing a [Config]
    leaves the receiver of the call as it was and adds to the log of
    effects nothing but reads of the configuration file: no request is
    sent, before or after the validation. *)
Theorem Config_init_only_reads_source {S} fs path (s : S) t :
  let r := Config_init fs path s t in
  self r = s /\
  exists evs,
    trace r = t ++ evs /\
    Forall (fun ev => ev = EvOpen path) evs /\
    requested evs = [].
Proof.
  assert (H : reads_only (S:=S) path (Config_init fs path)).
  { unfold Config_init.
    apply reads_only_bind; [apply reads_only_validate | intros _].
    apply reads_only_bind; [apply reads_only_extract | intros dto].
    apply reads_only_ret. }
  destruct (H s t) as (Hs & evs & Ht & Hevs). simpl.
  split; [exact Hs |]. exists evs. split; [exact Ht |]. split; [exact Hevs |].
  clear Ht. induction Hevs as [| ev evs Hev _ IH]; simpl.
  - reflexivity.
  - rewrite Hev. simpl. exact IH.
Qed.

(** C10.  In the object that [Config.__init__] fills from the values
    [config], [get_headless_mode] gives [None] whatever flag was stored,
    and each of the six other accessors gives the stored value. *)
Theorem accessors_of_constructed_config path (dto : ConfigDTO) :
  let c := Config_fields path dto in
  get_headless_mode c = None /\
  _headless_mode c = dto_headless_mode dto /\
  get_seed_urls c = dto_seed_urls dto /\
  get_num_articles c = dto_num_articles dto /\
  get_headers c = dto_headers dto /\
  get_encoding c = dto_encoding dto /\
  get_timeout c = dto_timeout dto /\
  get_verify_certificate c = dto_should_verify_certificate dto.
Proof. simpl. repeat split. Qed.

(** ** Crawler: one round of the loop *)

Lemma mem_In u l : mem u l = true <-> In u l.
Proof.
  unfold mem. rewrite existsb_exists. split.
  - intros (x & Hx & He). apply String.eqb_eq in He. subst x. exact Hx.
  - intros H. exists u. split; [exact H | apply String.eqb_refl].
Qed.

Lemma mem_filter_neq x u l :
  mem u (filter (fun y => negb (String.eqb x y)) l) = negb (String.eqb x u) && mem u l.
Proof.
  induction l as [| a l IH]; simpl.
  - symmetry. apply andb_false_r.
  - destruct (String.eqb_spec x a) as [Hxa | Hxa]; simpl.
    + rewrite IH. subst a. rewrite (String.eqb_sym u x).
      destruct (String.eqb x u); reflexivity.
    + rewrite IH. destruct (String.eqb_spec u a) as [Hua | Hua]; simpl.
      * subst a. destruct (String.eqb_spec x u); [contradiction | reflexivity].
      * reflexivity.
Qed.

(** Adding one more sighting: it is recorded at the end unless known. *)
Lemma first_seen_snoc l u :
  first_seen (l ++ [u]) =
  if mem u (first_seen l) then first_seen l else first_seen l ++ [u].
Proof.
  induction l as [| a l IH]; simpl.
  - reflexivity.
  - rewrite IH. change (existsb (String.eqb u)) with (mem u).
    rewrite mem_filter_neq, (String.eqb_sym a u).
    destruct (mem u (first_seen l)); destruct (String.eqb u a) eqn:Hua; simpl;
      try reflexivity.
    + rewrite filter_app. simpl. rewrite (String.eqb_sym a u), Hua. simpl.
      rewrite app_nil_r. reflexivity.
    + rewrite filter_app. simpl. rewrite (String.eqb_sym a u), Hua. reflexivity.
Qed.

Lemma NoDup_first_seen l : NoDup (first_seen l).
Proof.
  induction l as [| a l IH]; simpl; constructor.
  - intros Hin. apply filter_In in Hin. destruct Hin as [_ Hne].
    rewrite String.eqb_refl in Hne. discriminate Hne.
  - apply NoDup_filter. exact IH.
Qed.

Lemma extracted_snoc t ev :
  extracted (t ++ [ev]) = extracted t ++ match ev with EvExtract u => [u] | _ => [] end.
Proof. unfold extracted. rewrite flat_map_app. simpl. rewrite app_nil_r. reflexivity. Qed.

Lemma appended_snoc t ev :
  appended (t ++ [ev]) = appended t ++ match ev with EvAppend u => [u] | _ => [] end.
Proof. unfold appended. rewrite flat_map_app. simpl. rewrite app_nil_r. reflexivity. Qed.

Lemma _extract_url_run article_bs s t :
  _extract_url article_bs s t = mkRun (extract_outcome article_bs) s t.
Proof.
  unfold _extract_url, extract_outcome. rewrite !bind_run. simpl.
  destruct (soup_findall article_bs) as [[| art rest] | e |]; reflexivity.
Qed.

(** One round either leaves everything as it was and raises, or it saw
    the empty string and recorded it if it was new. *)
Lemma find_articles_round_run bs response s t :
  find_articles_round bs response s t =
  match extract_outcome (bs (text response) "lxml") with
  | Ret u =>
      if mem u (urls s)
      then mkRun (Ret tt) s (t ++ [EvExtract u])
      else mkRun (Ret tt) {| urls := urls s ++ [u]; config := config s |}
                 ((t ++ [EvExtract u]) ++ [EvAppend u])
  | Raise e => mkRun (Raise e) s t
  | OutOfFuel => mkRun OutOfFuel s t
  end.
Proof.
  unfold find_articles_round. rewrite bind_run, _extract_url_run. simpl.
  destruct (extract_outcome (bs (text response) "lxml")) as [u | e |];
    try reflexivity.
  cbv [bind emit get_self result self trace].
  destruct (mem u (urls s)); reflexivity.
Qed.

Lemma extract_outcome_empty article_bs u : extract_outcome article_bs = Ret u -> u = "".
Proof.
  unfold extract_outcome.
  destruct (soup_findall article_bs) as [[| art rest] | e |]; intros H;
    try discriminate H.
  injection H as H. symmetry. exact H.
Qed.

Lemma find_articles_seed_run rg bs fuel seed_url s t :
  find_articles_seed rg bs fuel seed_url s t =
  match rg t seed_url (get_headers (config s)) (get_timeout (config s))
           (get_verify_certificate (config s)) with
  | Ret response =>
      if Z.of_nat (List.length (urls s)) <? get_num_articles (config s)
      then while_true fuel (find_articles_round bs response) s (t ++ [EvGet seed_url])
      else mkRun (Ret tt) s (t ++ [EvGet seed_url])
  | Raise e => mkRun (Raise e) s (t ++ [EvGet seed_url])
  | OutOfFuel => mkRun OutOfFuel s (t ++ [EvGet seed_url])
  end.
Proof.
  cbv [find_articles_seed bind get_self make_request result self trace].
  destruct (rg t seed_url _ _ _) as [response | e |]; try reflexivity.
  destruct (Z.of_nat (List.length (urls s)) <? get_num_articles (config s));
    reflexivity.
Qed.

Lemma find_articles_run rg bs fuel s t :
  find_articles rg bs fuel s t =
  for_each (get_seed_urls (config s)) (find_articles_seed rg bs fuel) s t.
Proof. reflexivity. Qed.

(** ** Crawler: what holds at every point of the crawl *)

Section Stable.

Context {S : Type} (I : S -> list event -> Prop).

Lemma stable_bind {A B} (m : M S A) (f : A -> M S B) :
  stable I m -> (forall a, stable I (f a)) -> stable I (bind m f).
Proof.
  intros Hm Hf s t HI. rewrite bind_run. specialize (Hm s t HI).
  destruct (result (m s t)) as [a | e |]; simpl.
  - apply Hf. exact Hm.
  - exact Hm.
  - exact Hm.
Qed.

Lemma stable_ret {A} (a : A) : stable I (ret a).
Proof. intros s t HI. exact HI. Qed.

Lemma stable_for_each {A} (l : list A) (body : A -> M S unit) :
  (forall x, stable I (body x)) -> stable I (for_each l body).
Proof.
  intros Hbody. induction l as [| x rest IH]; simpl.
  - apply stable_ret.
  - apply stable_bind; [apply Hbody | intros _; exact IH].
Qed.

Lemma stable_while_true fuel (body : M S unit) :
  stable I body -> stable I (while_true fuel body).
Proof.
  intros Hbody. induction fuel as [| n IH]; simpl.
  - intros s t HI. exact HI.
  - apply stable_bind; [exact Hbody | intros _; exact IH].
Qed.

End Stable.

Lemma crawl_inv_get cfg s t url :
  crawl_inv cfg s t -> crawl_inv cfg s (t ++ [EvGet url]).
Proof.
  intros (Hc & Hf & Ha & Hall & Hn). unfold crawl_inv.
  rewrite extracted_snoc, appended_snoc, !app_nil_r. auto.
Qed.

Lemma stable_round cfg bs response :
  1 <= get_num_articles cfg ->
  stable (crawl_inv cfg) (find_articles_round bs response).
Proof.
  intros Hnum s t HI. rewrite find_articles_round_run.
  destruct (extract_outcome (bs (text response) "lxml")) as [u | e |] eqn:Hu;
    try exact HI.
  apply extract_outcome_empty in Hu. subst u.
  destruct HI as (Hc & Hf & Ha & Hall & Hn).
  destruct (mem "" (urls s)) eqn:Hm; unfold crawl_inv; simpl.
  - rewrite extracted_snoc, appended_snoc, first_seen_snoc, <- Hf, Hm, app_nil_r.
    auto.
  - rewrite !extracted_snoc, !appended_snoc, !app_nil_r.
    rewrite first_seen_snoc, <- Hf, Hm, <- Ha.
    repeat split; auto.
    apply Forall_app. split; [exact Hall | repeat constructor].
Qed.

Lemma stable_seed cfg rg bs fuel seed_url :
  stable (crawl_inv cfg) (find_articles_seed rg bs fuel seed_url).
Proof.
  intros s t HI. rewrite find_articles_seed_run.
  pose proof (crawl_inv_get cfg s t seed_url HI) as HI'.
  destruct (rg t seed_url _ _ _) as [response | e |]; try exact HI'.
  destruct (Z.ltb_spec (Z.of_nat (List.length (urls s))) (get_num_articles (config s)))
    as [Hlt | Hge]; [| exact HI'].
  apply stable_while_true; [| exact HI'].
  apply stable_round. destruct HI as (Hc & _). rewrite <- Hc. lia.
Qed.

Lemma crawl_inv_find_articles cfg rg bs fuel :
  crawl_inv cfg
    (self (find_articles rg bs fuel (Crawler_init cfg) []))
    (trace (find_articles rg bs fuel (Crawler_init cfg) [])).
Proof.
  rewrite find_articles_run.
  apply stable_for_each.
  - intros seed_url. apply stable_seed.
  - unfold crawl_inv. simpl. repeat split; auto. intros H. contradiction H. reflexivity.
Qed.

Lemma all_empty_NoDup_length (l : list string) :
  Forall (fun u => u = "") l -> NoDup l -> (List.length l <= 1)%nat.
Proof.
  intros Hall Hnd. destruct l as [| a [| b rest]]; simpl; try lia.
  exfalso. inversion Hall as [| ? ? Ha Hall']. inversion Hall' as [| ? ? Hb _].
  subst. inversion Hnd as [| ? ? Hnotin _]. apply Hnotin. left. reflexivity.
Qed.

(** C1.  For a configuration whose target count is not negative, any
    responses of the site and any number of rounds, the URLs a fresh
    crawler holds where [find_articles] stops (by returning, by an
    exception or in the middle of its loop) are pairwise distinct, are at
    most as many as the target count, and are the URLs [_extract_url]
    returned, each at the place of its first occurrence. *)
Theorem find_articles_urls_distinct_bounded_ordered rg bs fuel cfg :
  0 <= get_num_articles cfg ->
  let r := find_articles rg bs fuel (Crawler_init cfg) [] in
  NoDup (urls (self r)) /\
  Z.of_nat (List.length (urls (self r))) <= get_num_articles cfg /\
  urls (self r) = first_seen (extracted (trace r)).
Proof.
  intros Hnum r.
  destruct (crawl_inv_find_articles cfg rg bs fuel) as (_ & Hf & _ & Hall & Hn).
  fold r in Hf, Hall, Hn.
  assert (Hnd : NoDup (urls (self r))) by (rewrite Hf; apply NoDup_first_seen).
  split; [exact Hnd |]. split; [| exact Hf].
  pose proof (all_empty_NoDup_length _ Hall Hnd) as Hlen.
  destruct (urls (self r)) as [| u rest] eqn:Hurls.
  - simpl. exact Hnum.
  - assert (1 <= get_num_articles cfg) by (apply Hn; discriminate).
    lia.
Qed.

(** The list the crawler holds is the list of its appends. *)
Lemma find_articles_urls_appended rg bs fuel cfg :
  let r := find_articles rg bs fuel (Crawler_init cfg) [] in
  urls (self r) = appended (trace r).
Proof. intros r. apply (crawl_inv_find_articles cfg rg bs fuel). Qed.

(** ** Crawler: requests *)

Section SendsNothing.

Context {S : Type}.

Lemma sends_nothing_bind {A B} (m : M S A) (f : A -> M S B) :
  sends_nothing m -> (forall a, sends_nothing (f a)) -> sends_nothing (bind m f).
Proof.
  intros Hm Hf s t. rewrite bind_run.
  destruct (Hm s t) as (evs & Ht & Hevs).
  destruct (result (m s t)) as [a | e |]; simpl.
  - destruct (Hf a (self (m s t)) (trace (m s t))) as (evs' & Ht' & Hevs').
    exists (evs ++ evs'). split.
    + rewrite Ht', Ht. symmetry. apply app_assoc.
    + unfold requested in *. rewrite flat_map_app, Hevs, Hevs'. reflexivity.
  - exists evs. split; assumption.
  - exists evs. split; assumption.
Qed.

Lemma sends_nothing_while_true fuel (body : M S unit) :
  sends_nothing body -> sends_nothing (while_true fuel body).
Proof.
  intros Hbody. induction fuel as [| n IH]; simpl.
  - intros s t. exists []. split; [symmetry; apply app_nil_r | reflexivity].
  - apply sends_nothing_bind; [exact Hbody | intros _; exact IH].
Qed.

End SendsNothing.

Lemma sends_nothing_round bs response :
  sends_nothing (find_articles_round bs response).
Proof.
  intros s t. rewrite find_articles_round_run.
  destruct (extract_outcome (bs (text response) "lxml")) as [u | e |].
  - destruct (mem u (urls s)); simpl.
    + exists [EvExtract u]. split; reflexivity.
    + exists [EvExtract u; EvAppend u]. split; [| reflexivity].
      rewrite <- app_assoc. reflexivity.
  - exists []. split; [symmetry; apply app_nil_r | reflexivity].
  - exists []. split; [symmetry; apply app_nil_r | reflexivity].
Qed.

(** With a positive target count the crawl never gets past its first
    seed URL: it requests it, and then it raises or stays in the loop. *)
Lemma find_articles_first_seed rg bs fuel cfg seed_url rest :
  1 <= get_num_articles cfg ->
  get_seed_urls cfg = seed_url :: rest ->
  let r := find_articles rg bs fuel (Crawler_init cfg) [] in
  result r <> Ret tt /\
  exists evs, trace r = EvGet seed_url :: evs /\ requested evs = [].
Proof.
  intros Hnum Hseeds r. subst r. rewrite find_articles_run. simpl config.
  rewrite Hseeds. simpl for_each. rewrite bind_run, find_articles_seed_run.
  simpl urls. simpl config. simpl List.length.
  destruct (rg [] seed_url _ _ _) as [response | e |].
  - destruct (Z.ltb_spec (Z.of_nat 0) (get_num_articles cfg)) as [_ | Hge];
      [| simpl in Hge; lia].
    pose proof (while_true_never_returns fuel (find_articles_round bs response)
                  (Crawler_init cfg) ([] ++ [EvGet seed_url])) as Hnever.
    destruct (sends_nothing_while_true fuel (find_articles_round bs response)
                (sends_nothing_round bs response)
                (Crawler_init cfg) ([] ++ [EvGet seed_url])) as (evs & Ht & Hevs).
    fold (Crawler_init cfg).
    destruct (result (while_true fuel (find_articles_round bs response)
                        (Crawler_init cfg) ([] ++ [EvGet seed_url]))) as [[] | e |];
      simpl.
    + contradiction Hnever. reflexivity.
    + split; [discriminate |]. exists evs. split; [exact Ht | exact Hevs].
    + split; [discriminate |]. exists evs. split; [exact Ht | exact Hevs].
  - simpl. split; [discriminate |]. exists []. split; reflexivity.
  - simpl. split; [discriminate |]. exists []. split; reflexivity.
Qed.

(** A witness of C1: the quota of three and a page without links. *)
Lemma find_articles_urls_distinct_bounded_ordered_witness :
  0 <= get_num_articles demo_config /\
  let r := find_articles (serving "<findall></findall>") demo_parser 4
             (Crawler_init demo_config) [] in
  NoDup (urls (self r)) /\
  Z.of_nat (List.length (urls (self r))) <= get_num_articles demo_config /\
  urls (self r) = first_seen (extracted (trace r)).
Proof.
  split.
  - vm_compute. discriminate.
  - apply (find_articles_urls_distinct_bounded_ordered
             (serving "<findall></findall>") demo_parser 4 demo_config).
    vm_compute. discriminate.
Defined.


(** ** Crawler: the loop does not end *)

Lemma while_true_spins bs response fuel s t :
  extract_outcome (bs (text response) "lxml") = Ret "" ->
  mem "" (urls s) = true ->
  while_true fuel (find_articles_round bs response) s t =
  mkRun OutOfFuel s (t ++ repeat (EvExtract "") fuel).
Proof.
  intros Hpage Hknown. revert t. induction fuel as [| n IH]; intros t; simpl.
  - rewrite app_nil_r. reflexivity.
  - rewrite bind_run, find_articles_round_run, Hpage, Hknown. simpl.
    rewrite IH, <- app_assoc. reflexivity.
Qed.

(** C2 (the code departs from the claim).  The claim: a seed page is
    processed in one bounded pass and [find_articles] terminates; a page
    with zero candidate links is a no-op.  The code, on a page where the
    search of line 228 finds nothing and with a quota of three: whatever
    the number of rounds allowed, the loop has not ended; the first round
    appends the empty string to the URLs, and every further round scans
    the same page again. *)
Theorem find_articles_rescans_page_without_links fuel :
  let r := find_articles (serving "<findall></findall>") demo_parser (S fuel)
             (Crawler_init demo_config) [] in
  result r = OutOfFuel /\
  urls (self r) = [""] /\
  trace r = [EvGet "https://example.com/list"; EvExtract ""; EvAppend ""]
              ++ repeat (EvExtract "") fuel.
Proof.
  intros r. subst r. rewrite find_articles_run.
  change (get_seed_urls (config (Crawler_init demo_config)))
    with ["https://example.com/list"; "https://example.com/list2"].
  cbn [for_each]. rewrite bind_run, find_articles_seed_run.
  change (serving "<findall></findall>" [] "https://example.com/list"
            (get_headers (config (Crawler_init demo_config)))
            (get_timeout (config (Crawler_init demo_config)))
            (get_verify_certificate (config (Crawler_init demo_config))))
    with (Ret (mkResponse "<findall></findall>")).
  change (Z.of_nat (List.length (urls (Crawler_init demo_config)))
            <? get_num_articles (config (Crawler_init demo_config))) with true.
  cbn [while_true]. cbv iota.
  rewrite (bind_run (find_articles_round demo_parser (mkResponse "<findall></findall>"))).
  rewrite find_articles_round_run.
  change (extract_outcome (demo_parser (text (mkResponse "<findall></findall>")) "lxml"))
    with (Ret (A:=string) "").
  change (mem "" (urls (Crawler_init demo_config))) with false.
  cbv iota. cbn [result self trace].
  rewrite while_true_spins; [| reflexivity | reflexivity].
  cbn [result self trace urls]. repeat split.
Qed.

(** On a page without a [findall] element the first round raises. *)
Example find_articles_raises_on_ordinary_page :
  let r := find_articles (serving "<html><body><p>news</p></body></html>") demo_parser 4
             (Crawler_init demo_config) [] in
  result r = Raise TypeError /\ urls (self r) = [] /\
  requested (trace r) = ["https://example.com/list"].
Proof. vm_compute. repeat split. Qed.

(** ** Crawler: a request that fails *)

Lemma for_each_app {S A} (l1 l2 : list A) (body : A -> M S unit) s t :
  for_each (l1 ++ l2) body s t =
  bind (for_each l1 body) (fun _ => for_each l2 body) s t.
Proof.
  revert s t. induction l1 as [| x rest IH]; intros s t; simpl.
  - reflexivity.
  - rewrite !bind_run. destruct (result (body x s t)); simpl; try reflexivity.
    rewrite IH, bind_run. reflexivity.
Qed.

(** C7, as the claim states it, fails: with two seed URLs and a site that
    cannot be reached, [find_articles] raises the connection error of the
    first request and the second seed URL is never requested. *)
Lemma find_articles_raises_when_unreachable :
  let r := find_articles unreachable demo_parser 4 (Crawler_init demo_config) [] in
  result r = Raise ConnectionError /\
  requested (trace r) = ["https://example.com/list"].
Proof. vm_compute. split; reflexivity. Qed.

(** C7, amended.  If the request of a seed URL raises, the exception
    leaves [find_articles]: the crawler is as it was before that request
    (the seed contributes no URL), the request is the last thing that
    happened, and the seed URLs after it are not requested. *)
Theorem fetch_failure_leaves_find_articles rg bs fuel s t pre seed_url rest e s' t' :
  get_seed_urls (config s) = pre ++ seed_url :: rest ->
  for_each pre (find_articles_seed rg bs fuel) s t = mkRun (Ret tt) s' t' ->
  rg t' seed_url (get_headers (config s')) (get_timeout (config s'))
     (get_verify_certificate (config s')) = Raise e ->
  find_articles rg bs fuel s t = mkRun (Raise e) s' (t' ++ [EvGet seed_url]).
Proof.
  intros Hseeds Hpre Hfail.
  rewrite find_articles_run, Hseeds, for_each_app, bind_run, Hpre.
  cbn [result self trace for_each].
  rewrite bind_run, find_articles_seed_run, Hfail. reflexivity.
Qed.

Lemma fetch_failure_leaves_find_articles_witness :
  get_seed_urls (config quota_met)
    = ["https://example.com/list"] ++ "https://example.com/list2" :: [] /\
  for_each ["https://example.com/list"] (find_articles_seed flaky demo_parser 4)
    quota_met []
    = mkRun (Ret tt) quota_met [EvGet "https://example.com/list"] /\
  find_articles flaky demo_parser 4 quota_met []
    = mkRun (Raise ConnectionError) quota_met
        ([EvGet "https://example.com/list"] ++ [EvGet "https://example.com/list2"]).
Proof.
  split; [reflexivity |]. split; [reflexivity |].
  apply (fetch_failure_leaves_find_articles flaky demo_parser 4 quota_met []
           ["https://example.com/list"] "https://example.com/list2" []
           ConnectionError quota_met [EvGet "https://example.com/list"]);
    reflexivity.
Defined.

(** ** HTMLParser *)

(** C8 (the code departs from the claim).  The claim: [parse] gives an
    article record, with empty body text when the page has no content
    container.  The code: [parse] gives [None] for every parser, fetches
    nothing and leaves the parser as it was; [_fill_article_with_text]
    leaves the article as it was, whatever the page holds. *)
Theorem parse_returns_no_article (p : HTMLParser) t (article_soup : BeautifulSoup) :
  parse p t = mkRun (Ret None) p t /\
  _fill_article_with_text article_soup p t = mkRun (Ret tt) p t.
Proof. split; reflexivity. Qed.


(** * Further properties *)

(** ** Config: checks that touch nothing *)

Section Checks.
Context {S : Type} (E : exn -> Prop).

Lemma checks_lift {A} (R : A -> Prop) (o : outcome A) :
  match o with Ret a => R a | Raise e => E e | OutOfFuel => False end ->
  checks (S:=S) R E (lift o).
Proof. intros H s t. exists o. split; [reflexivity | exact H]. Qed.

Lemma checks_ret {A} (R : A -> Prop) (a : A) : R a -> checks (S:=S) R E (ret a).
Proof. intros H. apply (checks_lift R (Ret a)). exact H. Qed.

Lemma checks_raise {A} (R : A -> Prop) (e : exn) : E e -> checks (S:=S) (A:=A) R E (raise e).
Proof. intros H. apply (checks_lift R (Raise e)). exact H. Qed.

Lemma checks_bind {A B} (R : B -> Prop) (m : M S A) (f : A -> M S B) :
  checks (fun _ => True) E m -> (forall a, checks R E (f a)) -> checks R E (bind m f).
Proof.
  intros Hm Hf s t. destruct (Hm s t) as (o & Ho & Hcase).
  rewrite bind_run, Ho. simpl. destruct o as [a | e |].
  - apply Hf.
  - exists (Raise e). split; [reflexivity | exact Hcase].
  - contradiction.
Qed.

Lemma checks_stop {A B} (R : B -> Prop) (m : M S A) (f : A -> M S B) :
  checks (fun _ => False) E m -> checks R E (bind m f).
Proof.
  intros Hm s t. destruct (Hm s t) as (o & Ho & Hcase).
  rewrite bind_run, Ho. simpl. destruct o as [a | e |].
  - contradiction.
  - exists (Raise e). split; [reflexivity | exact Hcase].
  - contradiction.
Qed.

Lemma checks_if {A} (R : A -> Prop) (b : bool) (m1 m2 : M S A) :
  checks R E m1 -> checks R E m2 -> checks R E (if b then m1 else m2).
Proof. destruct b; intros; assumption. Qed.

Lemma checks_for_each {A} (l : list A) (body : A -> M S unit) :
  (forall x, checks (fun _ => True) E (body x)) ->
  checks (fun _ => True) E (for_each l body).
Proof.
  intros Hbody. induction l as [| x rest IH]; simpl.
  - apply checks_ret. exact I.
  - apply checks_bind; [apply Hbody | intros _; exact IH].
Qed.

End Checks.

Ltac solve_outcome :=
  cbv [py_getitem py_getitem_tuple isinstance_1 py_iter py_contains py_lt py_gt];
  repeat match goal with
         | |- context [match ?x with _ => _ end] => is_var x; destruct x
         | |- context [match assoc ?k ?d with _ => _ end] => destruct (assoc k d)
         end;
  simpl; tauto.

Ltac checks_step :=
  lazymatch goal with
  | |- checks _ _ (bind (lift (py_getitem_tuple _ _)) _) =>
      apply checks_stop; apply checks_lift; solve_outcome
  | |- checks _ _ (bind (lift _) _) =>
      apply checks_bind; [apply checks_lift; solve_outcome | intros ?]
  | |- checks _ _ (bind (for_each _ _) _) =>
      apply checks_bind; [apply checks_for_each; intros ? | intros ?]
  | |- checks _ _ (bind _ _) =>
      apply checks_bind; [| intros ?]
  | |- checks _ _ (py_or _ _) => unfold py_or
  | |- checks _ _ (if _ then _ else _) => apply checks_if
  | |- checks _ _ (raise _) => apply checks_raise; simpl; tauto
  | |- checks _ _ (ret _) => apply checks_ret; exact I
  | |- checks _ _ (lift _) => apply checks_lift; solve_outcome
  end.

Lemma open_json_load_run {S} fs path (s : S) t :
  open_json_load fs path s t = mkRun (fs path) s (t ++ [EvOpen path]).
Proof. reflexivity. Qed.

Lemma validate_shape {S} fs path (s : S) t :
  exists o,
    _validate_config_content fs path s t = mkRun o s (t ++ [EvOpen path]) /\
    match o with
    | Ret _ => False
    | Raise e => fs path = Raise e \/ In e validation_errors
    | OutOfFuel => fs path = OutOfFuel
    end.
Proof.
  unfold _validate_config_content. rewrite bind_run, open_json_load_run.
  cbn [result self trace].
  destruct (fs path) as [config_data | e |].
  - match goal with
    | |- exists o, ?m s ?t' = _ /\ _ =>
        assert (H : checks (fun _ => False) (fun e => In e validation_errors) m)
    end.
    { repeat checks_step. }
    destruct (H s (t ++ [EvOpen path])) as (o & Ho & Hcase).
    exists o. split; [exact Ho |].
    destruct o as [a | e |]; [exact Hcase | right; exact Hcase | contradiction].
  - exists (Raise e). split; [reflexivity | left; reflexivity].
  - exists OutOfFuel. split; reflexivity.
Qed.



(** X1.  Constructing a [Config] never gives an object, whatever the file
    holds: the call opens the file once, leaves everything else as it
    was, and ends in the exception of the reader or in one of five
    exceptions of the validation.  The errors for headers, encoding,
    timeout and verify flag never come out, and the second read of the
    file in [_extract_config_content] never happens. *)
Theorem Config_init_always_raises {S} fs path (s : S) t :
  let r := Config_init fs path s t in
  self r = s /\
  trace r = t ++ [EvOpen path] /\
  match result r with
  | Ret _ => False
  | Raise e => fs path = Raise e \/ In e validation_errors
  | OutOfFuel => fs path = OutOfFuel
  end.
Proof.
  destruct (validate_shape fs path s t) as (o & Ho & Hcase).
  unfold Config_init. rewrite bind_run, Ho. cbn [result self trace].
  destruct o as [a | e |]; [contradiction | |]; cbn [result self trace]; auto.
Qed.


(** The seed loop on a list of strings. *)
Lemma seed_loop_run {S} (seeds : list string) (s : S) t :
  for_each (map JStr seeds)
    (fun url =>
       found <- lift (py_contains SEED_PATTERN url) ;;
       if negb found then raise IncorrectSeedURLError else ret tt) s t
  = mkRun (if forallb (is_substring SEED_PATTERN) seeds
           then Ret tt else Raise IncorrectSeedURLError) s t.
Proof.
  induction seeds as [| u rest IH]; simpl.
  - reflexivity.
  - rewrite bind_run. cbn [bind lift py_contains result self trace].
    destruct (is_substring SEED_PATTERN u); simpl.
    + exact IH.
    + reflexivity.
Qed.

Lemma bind_lift_run {S A B} (o : outcome A) (f : A -> M S B) s t :
  bind (lift o) f s t =
  match o with
  | Ret a => f a s t
  | Raise e => mkRun (Raise e) s t
  | OutOfFuel => mkRun OutOfFuel s t
  end.
Proof. destruct o; reflexivity. Qed.


Ltac run_checks :=
  cbn [bind lift ret raise py_or py_lt py_gt py_getitem_tuple isinstance_1
       isinstance_int isinstance_str negb orb result self trace].


Lemma validate_past_seed_rule {S} fs path (s : S) t d seeds total :
  fs path = Ret (JDict d) ->
  assoc "seed_urls" d = Some (JList (map JStr seeds)) ->
  forallb (is_substring SEED_PATTERN) seeds = true ->
  assoc "total_articles_to_find_and_parse" d = Some total ->
  result (_validate_config_content fs path s t) = Raise (count_verdict total).
Proof.
  intros Hfs Hseeds Hall Htotal.
  unfold _validate_config_content. rewrite bind_run, open_json_load_run, Hfs.
  cbn [result self trace]. rewrite bind_lift_run. cbn [py_getitem]. rewrite Hseeds.
  rewrite bind_lift_run. cbn [py_iter]. rewrite bind_run, seed_loop_run, Hall.
  cbn [result self trace]. rewrite Htotal.
  destruct total as [| b | n | f | u | l | d']; try reflexivity.
  - destruct b; reflexivity.
  - run_checks. unfold count_verdict.
    destruct (Z.ltb_spec n 1) as [Hlt | Hge]; [reflexivity |]. run_checks.
    destruct (150 <? n); [reflexivity |]. run_checks.
    destruct (Z.ltb_spec n 0) as [Hneg | _]; [lia | reflexivity].
  - run_checks. unfold count_verdict.
    destruct (float_lt f 1); [reflexivity |]. run_checks.
    destruct (float_gt f 150); reflexivity.
Qed.


(** X2.  For a source whose seed URLs are a list of strings, the
    validation ends in the seed URL error exactly when one of them does
    not contain the text of the pattern; nothing in the other fields
    changes that. *)
Theorem seed_rule_on_strings {S} fs path (s : S) t d seeds :
  fs path = Ret (JDict d) ->
  assoc "seed_urls" d = Some (JList (map JStr seeds)) ->
  (result (_validate_config_content fs path s t) = Raise IncorrectSeedURLError
   <-> exists url, In url seeds /\ is_substring SEED_PATTERN url = false).
Proof.
  intros Hfs Hseeds.
  unfold _validate_config_content. rewrite bind_run, open_json_load_run, Hfs.
  cbn [result self trace]. rewrite bind_lift_run. cbn [py_getitem]. rewrite Hseeds.
  rewrite bind_lift_run. cbn [py_iter]. rewrite bind_run, seed_loop_run.
  cbn [result self trace].
  destruct (forallb (is_substring SEED_PATTERN) seeds) eqn:Hall.
  - match goal with
    | |- result (?m s ?t') = _ <-> _ =>
        assert (H : checks (fun _ => False)
                      (fun e => In e [KeyError; TypeError; NumberOfArticlesOutOfRangeError;
                                      IncorrectNumberOfArticlesError]) m)
          by (repeat checks_step);
        destruct (H s t') as (o & Ho & Hcase); rewrite Ho
    end.
    cbn [result]. split.
    + intros Heq. subst o. simpl in Hcase.
      destruct Hcase as [Hc | [Hc | [Hc | [Hc | []]]]]; discriminate Hc.
    + intros (url & Hin & Hno). rewrite forallb_forall in Hall.
      rewrite (Hall url Hin) in Hno. discriminate Hno.
  - cbn [result]. split; [intros _ | reflexivity].
    apply not_true_iff_false in Hall. rewrite forallb_forall in Hall.
    destruct (existsb (fun u => negb (is_substring SEED_PATTERN u)) seeds) eqn:Hex.
    + apply existsb_exists in Hex. destruct Hex as (url & Hin & Hno).
      exists url. split; [exact Hin |]. apply negb_true_iff. exact Hno.
    + exfalso. apply Hall. intros url Hin.
      destruct (is_substring SEED_PATTERN url) eqn:Hu; [reflexivity |].
      assert (Htrue : existsb (fun u => negb (is_substring SEED_PATTERN u)) seeds = true).
      { apply existsb_exists. exists url. split; [exact Hin |]. rewrite Hu. reflexivity. }
      rewrite Htrue in Hex. discriminate Hex.
Qed.


Lemma seed_rule_on_strings_witness :
  holding well_formed_source "scrapper_config.json"
    = Ret (JDict (items_of well_formed_source)) /\
  assoc "seed_urls" (items_of well_formed_source)
    = Some (JList (map JStr ["https://example.com/list"])) /\
  (result (_validate_config_content (holding well_formed_source)
             "scrapper_config.json" tt [])
     = Raise IncorrectSeedURLError
   <-> exists url, In url ["https://example.com/list"] /\
                   is_substring SEED_PATTERN url = false).
Proof.
  split; [reflexivity |]. split; [reflexivity |].
  apply (seed_rule_on_strings (holding well_formed_source) "scrapper_config.json" tt []
           (items_of well_formed_source) ["https://example.com/list"]);
    reflexivity.
Defined.

Lemma one_char_has_no_pattern (c : ascii) :
  is_substring SEED_PATTERN (String c EmptyString) = false.
Proof.
  unfold is_substring, SEED_PATTERN. cbn [String.index String.prefix].
  destruct (ascii_dec "h" c); reflexivity.
Qed.


(** X3.  Seed URLs given as one non-empty string instead of a list are
    taken character by character, and the first character ends the
    validation in the seed URL error. *)
Theorem seed_urls_as_one_string {S} fs path (s : S) t d c rest :
  fs path = Ret (JDict d) ->
  assoc "seed_urls" d = Some (JStr (String c rest)) ->
  result (_validate_config_content fs path s t) = Raise IncorrectSeedURLError.
Proof.
  intros Hfs Hseeds.
  unfold _validate_config_content. rewrite bind_run, open_json_load_run, Hfs.
  cbn [result self trace]. rewrite bind_lift_run. cbn [py_getitem]. rewrite Hseeds.
  rewrite bind_lift_run. cbn [py_iter chars for_each].
  rewrite !bind_run. cbn [bind lift py_contains result self trace].
  rewrite one_char_has_no_pattern. reflexivity.
Qed.


Lemma seed_urls_as_one_string_witness :
  holding one_string_source "scrapper_config.json"
    = Ret (JDict (items_of one_string_source)) /\
  assoc "seed_urls" (items_of one_string_source)
    = Some (JStr (String "h" "ttps://example.com/list")) /\
  result (_validate_config_content (holding one_string_source)
            "scrapper_config.json" tt [])
    = Raise IncorrectSeedURLError.
Proof.
  split; [reflexivity |]. split; [reflexivity |].
  apply (seed_urls_as_one_string (holding one_string_source) "scrapper_config.json" tt []
           (items_of one_string_source) "h"%char "ttps://example.com/list");
    reflexivity.
Defined.

(** X4.  With seed URLs that pass and an integer number of articles [n],
    the validation ends in the out-of-range error when [n < 1] or
    [n > 150] and in [KeyError] otherwise: a negative integer is out of
    range, and no integer meets the error for an incorrect number. *)
Theorem integer_count_verdict {S} fs path (s : S) t d seeds n :
  fs path = Ret (JDict d) ->
  assoc "seed_urls" d = Some (JList (map JStr seeds)) ->
  forallb (is_substring SEED_PATTERN) seeds = true ->
  assoc "total_articles_to_find_and_parse" d = Some (JInt n) ->
  result (_validate_config_content fs path s t) =
  if (n <? 1) || (150 <? n) then Raise NumberOfArticlesOutOfRangeError else Raise KeyError.
Proof.
  intros Hfs Hseeds Hall Htotal.
  rewrite (validate_past_seed_rule fs path s t d seeds (JInt n) Hfs Hseeds Hall Htotal).
  simpl. destruct ((n <? 1) || (150 <? n)); reflexivity.
Qed.


Lemma integer_count_verdict_witness :
  holding literal_source "scrapper_config.json"
    = Ret (JDict (items_of literal_source)) /\
  assoc "seed_urls" (items_of literal_source)
    = Some (JList (map JStr ["https?://(www.)?example.com/list"])) /\
  forallb (is_substring SEED_PATTERN) ["https?://(www.)?example.com/list"] = true /\
  assoc "total_articles_to_find_and_parse" (items_of literal_source) = Some (JInt 3) /\
  result (_validate_config_content (holding literal_source) "scrapper_config.json" tt [])
    = (if (3 <? 1) || (150 <? 3)
       then Raise NumberOfArticlesOutOfRangeError else Raise KeyError).
Proof.
  split; [reflexivity |]. split; [reflexivity |]. split; [reflexivity |].
  split; [reflexivity |].
  apply (integer_count_verdict (holding literal_source) "scrapper_config.json" tt []
           (items_of literal_source) ["https?://(www.)?example.com/list"] 3);
    reflexivity.
Defined.

(** X5.  With seed URLs that pass, the validation ends in the error for
    an incorrect number of articles exactly when the number is a float
    that is neither below 1 nor above 150. *)
Theorem incorrect_number_only_for_floats {S} fs path (s : S) t d seeds total :
  fs path = Ret (JDict d) ->
  assoc "seed_urls" d = Some (JList (map JStr seeds)) ->
  forallb (is_substring SEED_PATTERN) seeds = true ->
  assoc "total_articles_to_find_and_parse" d = Some total ->
  (result (_validate_config_content fs path s t) = Raise IncorrectNumberOfArticlesError
   <-> exists f, total = JFloat f /\ float_lt f 1 = false /\ float_gt f 150 = false).
Proof.
  intros Hfs Hseeds Hall Htotal.
  rewrite (validate_past_seed_rule fs path s t d seeds total Hfs Hseeds Hall Htotal).
  split.
  - intros H. injection H as H.
    destruct total as [| b | n | f | u | l | d']; simpl in H; try discriminate H.
    + destruct b; discriminate H.
    + destruct ((n <? 1) || (150 <? n)); discriminate H.
    + exists f. destruct (float_lt f 1); [discriminate H |].
      destruct (float_gt f 150); [discriminate H |]. auto.
  - intros (f & -> & H1 & H2). simpl. rewrite H1, H2. reflexivity.
Qed.

Lemma incorrect_number_only_for_floats_witness :
  holding fractional_source "scrapper_config.json"
    = Ret (JDict (items_of fractional_source)) /\
  assoc "seed_urls" (items_of fractional_source)
    = Some (JList (map JStr ["https?://(www.)?example.com/list"])) /\
  forallb (is_substring SEED_PATTERN) ["https?://(www.)?example.com/list"] = true /\
  assoc "total_articles_to_find_and_parse" (items_of fractional_source)
    = Some (JFloat (FFin (5 # 2))) /\
  (result (_validate_config_content (holding fractional_source)
             "scrapper_config.json" tt [])
     = Raise IncorrectNumberOfArticlesError
   <-> exists f, JFloat (FFin (5 # 2)) = JFloat f /\
                 float_lt f 1 = false /\ float_gt f 150 = false).
Proof.
  split; [reflexivity |]. split; [reflexivity |]. split; [reflexivity |].
  split; [reflexivity |].
  apply (incorrect_number_only_for_floats (holding fractional_source)
           "scrapper_config.json" tt [] (items_of fractional_source)
           ["https?://(www.)?example.com/list"] (JFloat (FFin (5 # 2))));
    reflexivity.
Defined.

(** ** Crawler: what a crawl can and cannot do *)

(** X6.  [_extract_url] never gives a link.  It leaves the crawler and
    the log as they were; it returns the empty string when the search
    finds nothing, raises [TypeError] as soon as the search finds an
    element, and passes on the exception of the search. *)
Theorem extract_url_finds_no_link article_bs s t :
  let r := _extract_url article_bs s t in
  self r = s /\ trace r = t /\
  result r = match soup_findall article_bs with
             | Ret [] => Ret ""
             | Ret (_ :: _) => Raise TypeError
             | Raise e => Raise e
             | OutOfFuel => OutOfFuel
             end.
Proof. rewrite _extract_url_run. repeat split. Qed.


Lemma seeds_normal_return rg bs fuel seeds s t :
  result (for_each seeds (find_articles_seed rg bs fuel) s t) = Ret tt ->
  for_each seeds (find_articles_seed rg bs fuel) s t
  = mkRun (Ret tt) s (t ++ map EvGet seeds).
Proof.
  revert t. induction seeds as [| u rest IH]; intros t; simpl.
  - intros _. rewrite app_nil_r. reflexivity.
  - rewrite bind_run, find_articles_seed_run.
    destruct (rg t u _ _ _) as [response | e |]; simpl; try discriminate.
    destruct (Z.of_nat (List.length (urls s)) <? get_num_articles (config s)).
    + pose proof (while_true_never_returns fuel (find_articles_round bs response)
                    s (t ++ [EvGet u])) as Hnever.
      destruct (result (while_true fuel (find_articles_round bs response) s
                          (t ++ [EvGet u]))) as [[] | e |]; simpl;
        try discriminate.
      contradiction Hnever. reflexivity.
    + simpl. intros H. rewrite (IH _ H), <- app_assoc. reflexivity.
Qed.


(** X7.  If [find_articles] returns, it has extracted nothing: the
    crawler is as it was, and the log has grown by one request for each
    seed URL, in the configured order. *)
Theorem find_articles_normal_return rg bs fuel s t :
  result (find_articles rg bs fuel s t) = Ret tt ->
  find_articles rg bs fuel s t
  = mkRun (Ret tt) s (t ++ map EvGet (get_seed_urls (config s))).
Proof. rewrite find_articles_run. apply seeds_normal_return. Qed.


Lemma find_articles_normal_return_witness :
  result (find_articles (serving "<findall></findall>") demo_parser 4 quota_met [])
    = Ret tt /\
  find_articles (serving "<findall></findall>") demo_parser 4 quota_met []
    = mkRun (Ret tt) quota_met ([] ++ map EvGet (get_seed_urls (config quota_met))).
Proof.
  split; [reflexivity |].
  apply (find_articles_normal_return (serving "<findall></findall>") demo_parser 4
           quota_met []).
  reflexivity.
Defined.

(** X8.  A fresh crawler with a positive target count requests its first
    seed URL and no other; [find_articles] returns exactly when there is
    no seed URL at all. *)
Theorem find_articles_requests_first_seed_only rg bs fuel cfg :
  1 <= get_num_articles cfg ->
  let r := find_articles rg bs fuel (Crawler_init cfg) [] in
  requested (trace r) = firstn 1 (get_seed_urls cfg) /\
  (result r = Ret tt <-> get_seed_urls cfg = []).
Proof.
  intros Hnum r. destruct (get_seed_urls cfg) as [| u rest] eqn:Hseeds.
  - subst r. rewrite find_articles_run. simpl config. rewrite Hseeds. simpl.
    split; [reflexivity | split; reflexivity].
  - destruct (find_articles_first_seed rg bs fuel cfg u rest Hnum Hseeds)
      as (Hres & evs & Ht & Hevs).
    fold r in Hres, Ht. rewrite Ht. simpl. rewrite Hevs. split; [reflexivity |].
    split; [intros H; contradiction | discriminate].
Qed.


Lemma find_articles_requests_first_seed_only_witness :
  1 <= get_num_articles demo_config /\
  let r := find_articles (serving "<findall></findall>") demo_parser 4
             (Crawler_init demo_config) [] in
  requested (trace r) = firstn 1 (get_seed_urls demo_config) /\
  (result r = Ret tt <-> get_seed_urls demo_config = []).
Proof.
  split.
  - vm_compute. discriminate.
  - apply (find_articles_requests_first_seed_only
             (serving "<findall></findall>") demo_parser 4 demo_config).
    vm_compute. discriminate.
Defined.

(** X9.  Wherever [find_articles] stops, a fresh crawler holds no URL or
    the empty string alone: no article URL is ever discovered. *)
Theorem find_articles_never_finds_article rg bs fuel cfg :
  let r := find_articles rg bs fuel (Crawler_init cfg) [] in
  urls (self r) = [] \/ urls (self r) = [""].
Proof.
  intros r.
  destruct (crawl_inv_find_articles cfg rg bs fuel) as (_ & Hf & _ & Hall & _).
  fold r in Hf, Hall.
  assert (Hnd : NoDup (urls (self r))) by (rewrite Hf; apply NoDup_first_seen).
  pose proof (all_empty_NoDup_length _ Hall Hnd) as Hlen.
  destruct (urls (self r)) as [| u [| v rest]]; simpl in Hlen; try lia.
  - left. reflexivity.
  - right. inversion Hall as [| ? ? Hu _]. rewrite Hu. reflexivity.
Qed.


(** X10.  A crawler below its quota whose first seed page answers, and on
    whose page the search finds nothing, stays in the loop for any number
    of rounds: the first round records the empty string unless it is
    known, every round scans the same page again, no further request is
    sent. *)
Theorem find_articles_loops_without_links rg bs fuel s t seed_url rest response :
  get_seed_urls (config s) = seed_url :: rest ->
  Z.of_nat (List.length (urls s)) < get_num_articles (config s) ->
  rg t seed_url (get_headers (config s)) (get_timeout (config s))
     (get_verify_certificate (config s)) = Ret response ->
  soup_findall (bs (text response) "lxml") = Ret [] ->
  let r := find_articles rg bs (S fuel) s t in
  result r = OutOfFuel /\
  urls (self r) = (if mem "" (urls s) then urls s else urls s ++ [""]) /\
  config (self r) = config s /\
  trace r = t ++ EvGet seed_url :: EvExtract ""
              :: (if mem "" (urls s) then [] else [EvAppend ""])
              ++ repeat (EvExtract "") fuel.
Proof.
  intros Hseeds Hbelow Hget Hpage r. subst r.
  assert (Hout : extract_outcome (bs (text response) "lxml") = Ret "")
    by (unfold extract_outcome; rewrite Hpage; reflexivity).
  rewrite find_articles_run, Hseeds. cbn [for_each].
  rewrite bind_run, find_articles_seed_run, Hget.
  apply Z.ltb_lt in Hbelow. rewrite Hbelow.
  cbn [while_true].
  rewrite (bind_run (find_articles_round bs response)), find_articles_round_run, Hout.
  destruct (mem "" (urls s)) eqn:Hmem; cbn [result self trace].
  - rewrite while_true_spins; [| exact Hout | exact Hmem].
    cbn [result self trace]. repeat split.
    rewrite <- !app_assoc. reflexivity.
  - rewrite while_true_spins; [| exact Hout |].
    + cbn [result self trace urls config]. repeat split.
      rewrite <- !app_assoc. reflexivity.
    + cbn [urls]. apply mem_In. apply in_or_app. right. left. reflexivity.
Qed.


Lemma find_articles_loops_without_links_witness :
  get_seed_urls (config (Crawler_init demo_config))
    = "https://example.com/list" :: ["https://example.com/list2"] /\
  Z.of_nat (List.length (urls (Crawler_init demo_config)))
    < get_num_articles (config (Crawler_init demo_config)) /\
  let r := find_articles (serving "<findall></findall>") demo_parser 3
             (Crawler_init demo_config) [] in
  result r = OutOfFuel /\
  urls (self r) = [""] /\
  config (self r) = demo_config /\
  trace r = [EvGet "https://example.com/list"; EvExtract ""; EvAppend "";
             EvExtract ""; EvExtract ""].
Proof.
  split; [reflexivity |]. split; [reflexivity |].
  apply (find_articles_loops_without_links (serving "<findall></findall>") demo_parser 2
           (Crawler_init demo_config) [] "https://example.com/list"
           ["https://example.com/list2"] (mkResponse "<findall></findall>"));
    reflexivity.
Defined.

(** X11.  A crawler below its quota whose first seed page answers with a
    page on which the search finds at least one element raises
    [TypeError] in the first round: nothing is discovered and the other
    seed URLs are not requested. *)
Theorem find_articles_raises_on_links rg bs fuel s t seed_url rest response art arts :
  get_seed_urls (config s) = seed_url :: rest ->
  Z.of_nat (List.length (urls s)) < get_num_articles (config s) ->
  rg t seed_url (get_headers (config s)) (get_timeout (config s))
     (get_verify_certificate (config s)) = Ret response ->
  soup_findall (bs (text response) "lxml") = Ret (art :: arts) ->
  find_articles rg bs (S fuel) s t = mkRun (Raise TypeError) s (t ++ [EvGet seed_url]).
Proof.
  intros Hseeds Hbelow Hget Hpage.
  assert (Hout : extract_outcome (bs (text response) "lxml") = Raise TypeError)
    by (unfold extract_outcome; rewrite Hpage; reflexivity).
  rewrite find_articles_run, Hseeds. cbn [for_each].
  rewrite bind_run, find_articles_seed_run, Hget.
  apply Z.ltb_lt in Hbelow. rewrite Hbelow.
  cbn [while_true].
  rewrite (bind_run (find_articles_round bs response)), find_articles_round_run, Hout.
  reflexivity.
Qed.


Lemma find_articles_raises_on_links_witness :
  soup_findall (listing_parser (text (mkResponse listing_markup)) "lxml")
    = Ret [Element "div" [("class", "item__title")]
             [Element "a" [("href", "/news/1")] []]] /\
  find_articles (serving listing_markup) listing_parser 3 (Crawler_init demo_config) []
    = mkRun (Raise TypeError) (Crawler_init demo_config)
        ([] ++ [EvGet "https://example.com/list"]).
Proof.
  split; [reflexivity |].
  apply (find_articles_raises_on_links (serving listing_markup) listing_parser 2
           (Crawler_init demo_config) [] "https://example.com/list"
           ["https://example.com/list2"] (mkResponse listing_markup)
           (Element "div" [("class", "item__title")]
              [Element "a" [("href", "/news/1")] []]) []);
    reflexivity.
Defined.

Lemma seeds_at_quota rg bs fuel seeds s t :
  get_num_articles (config s) <= Z.of_nat (List.length (urls s)) ->
  (forall t' url, exists response,
      rg t' url (get_headers (config s)) (get_timeout (config s))
         (get_verify_certificate (config s)) = Ret response) ->
  for_each seeds (find_articles_seed rg bs fuel) s t
  = mkRun (Ret tt) s (t ++ map EvGet seeds).
Proof.
  intros Hquota Hnet. revert t. induction seeds as [| u rest IH]; intros t; simpl.
  - rewrite app_nil_r. reflexivity.
  - rewrite bind_run, find_articles_seed_run.
    destruct (Hnet t u) as (response & Hget). rewrite Hget.
    apply Z.ltb_ge in Hquota. rewrite Hquota. cbn [result self trace].
    rewrite IH, <- app_assoc. reflexivity.
Qed.


(** X12.  A crawler that already holds as many URLs as the target count,
    on a site that answers every request, still requests every seed URL
    in order; then [find_articles] returns with the crawler as it was. *)
Theorem find_articles_at_quota_requests_all rg bs fuel s t :
  get_num_articles (config s) <= Z.of_nat (List.length (urls s)) ->
  (forall t' url, exists response,
      rg t' url (get_headers (config s)) (get_timeout (config s))
         (get_verify_certificate (config s)) = Ret response) ->
  find_articles rg bs fuel s t
  = mkRun (Ret tt) s (t ++ map EvGet (get_seed_urls (config s))).
Proof. intros Hquota Hnet. rewrite find_articles_run. apply seeds_at_quota; assumption. Qed.

Lemma find_articles_at_quota_requests_all_witness :
  get_num_articles (config quota_met) <= Z.of_nat (List.length (urls quota_met)) /\
  find_articles (serving "<findall></findall>") demo_parser 4 quota_met []
    = mkRun (Ret tt) quota_met ([] ++ map EvGet (get_seed_urls (config quota_met))).
Proof.
  split.
  - vm_compute. discriminate.
  - apply (find_articles_at_quota_requests_all (serving "<findall></findall>")
             demo_parser 4 quota_met []).
    + vm_compute. discriminate.
    + intros t' url. exists (mkResponse "<findall></findall>"). reflexivity.
Defined.

(** ** The output directory: what a call leaves *)

Lemma is_prefix_refl p : is_prefix p p = true.
Proof. induction p as [| x p IH]; simpl; [| rewrite String.eqb_refl]; auto. Qed.


Lemma is_prefix_trans a b c :
  is_prefix a b = true -> is_prefix b c = true -> is_prefix a c = true.
Proof.
  revert b c. induction a as [| x a IH]; intros [| y b] [| z c]; simpl;
    try discriminate; auto.
  intros H1 H2. apply andb_true_iff in H1. destruct H1 as [Hxy Ha].
  apply andb_true_iff in H2. destruct H2 as [Hyz Hb].
  apply String.eqb_eq in Hxy. subst y. rewrite Hyz. simpl. apply (IH b c); assumption.
Qed.

Lemma in_proper_prefixes a p :
  In a (proper_prefixes p) <-> is_prefix a p = true /\ a <> p.
Proof.
  revert a. induction p as [| x p IH]; intros a; simpl.
  - split; [contradiction |]. intros [Ha Hne]. destruct a; [contradiction Hne; reflexivity | discriminate Ha].
  - split.
    + intros [<- | Hin].
      * split; [reflexivity | discriminate].
      * apply in_map_iff in Hin. destruct Hin as (a' & <- & Hin').
        apply IH in Hin'. destruct Hin' as [Hp Hne]. simpl.
        rewrite String.eqb_refl, Hp. split; [reflexivity |].
        intros Heq. injection Heq as Heq. contradiction.
    + intros [Ha Hne]. destruct a as [| y a']; [left; reflexivity |]. right.
      simpl in Ha. apply andb_true_iff in Ha. destruct Ha as [Hxy Ha'].
      apply String.eqb_eq in Hxy. subst y. apply in_map. apply IH.
      split; [exact Ha' |]. intros Heq. apply Hne. rewrite Heq. reflexivity.
Qed.

Lemma no_file_above fs p :
  existsb (fun a => is_file (fs a)) (proper_prefixes p) = false <->
  (forall a, is_prefix a p = true -> a <> p -> fs a <> Some File).
Proof.
  split.
  - intros Hex a Ha Hne Hfile.
    assert (Htrue : existsb (fun a => is_file (fs a)) (proper_prefixes p) = true).
    { apply existsb_exists. exists a. split.
      - apply in_proper_prefixes. split; assumption.
      - rewrite Hfile. reflexivity. }
    rewrite Htrue in Hex. discriminate Hex.
  - intros Hall. destruct (existsb _ _) eqn:Hex; [| reflexivity].
    exfalso. apply existsb_exists in Hex. destruct Hex as (a & Hin & Hfile).
    apply in_proper_prefixes in Hin. destruct Hin as [Ha Hne].
    apply (Hall a Ha Hne). destruct (fs a) as [[|] |]; try discriminate Hfile. reflexivity.
Qed.

Lemma well_formed_rmtree fs p :
  well_formed fs -> well_formed (fun q => if is_prefix p q then None else fs q).
Proof.
  intros Hwf a q Ha Hq. cbv beta in *.
  destruct (is_prefix p q) eqn:Hpq; [contradiction Hq; reflexivity |].
  destruct (Hwf a q Ha Hq) as [-> | Hdir]; [left; reflexivity | right].
  destruct (is_prefix p a) eqn:Hpa; [| exact Hdir].
  rewrite (is_prefix_trans p a q Hpa Ha) in Hpq. discriminate Hpq.
Qed.

Lemma well_formed_mkdir fs p :
  well_formed fs -> fs p = None ->
  existsb (fun a => is_file (fs a)) (proper_prefixes p) = false ->
  well_formed (fun q => if is_prefix q p
                        then match fs q with Some n => Some n | None => Some Dir end
                        else fs q).
Proof.
  intros Hwf Hp Hfree a q Ha Hq. cbv beta in *.
  rewrite no_file_above in Hfree.
  destruct (is_prefix q p) eqn:Hqp.
  - right. rewrite (is_prefix_trans a q p Ha Hqp).
    destruct (fs a) as [[|] |] eqn:Hfa; try reflexivity.
    exfalso. apply (Hfree a (is_prefix_trans a q p Ha Hqp)); [| exact Hfa].
    intros ->. rewrite Hp in Hfa. discriminate Hfa.
  - destruct (Hwf a q Ha Hq) as [-> | Hdir]; [left; reflexivity | right].
    rewrite Hdir. destruct (is_prefix a p); reflexivity.
Qed.


Lemma path_eqb_eq p q : path_eqb p q = true <-> p = q.
Proof.
  revert q. induction p as [| x p IH]; intros [| y q]; simpl;
    try (split; [discriminate | discriminate]); [split; reflexivity |].
  rewrite andb_true_iff, String.eqb_eq, IH. split.
  - intros [-> ->]. reflexivity.
  - intros H. injection H as -> ->. split; reflexivity.
Qed.

Lemma listed_In entries q :
  listed entries q <> None -> exists n, In (q, n) entries.
Proof.
  induction entries as [| [p n] rest IH]; simpl; [intros H; contradiction H; reflexivity |].
  destruct (path_eqb p q) eqn:Hpq.
  - intros _. apply path_eqb_eq in Hpq. subst p. exists n. left. reflexivity.
  - intros H. destruct (IH H) as (n' & Hin). exists n'. right. exact Hin.
Qed.

Lemma closed_listing_well_formed entries :
  closed_listing entries = true -> well_formed (listed entries).
Proof.
  intros Hclosed a q Ha Hq. destruct (listed_In entries q Hq) as (n & Hin).
  unfold closed_listing in Hclosed. rewrite forallb_forall in Hclosed.
  specialize (Hclosed (q, n) Hin). simpl in Hclosed. rewrite forallb_forall in Hclosed.
  destruct (path_eqb a q) eqn:Haq.
  - left. apply path_eqb_eq. exact Haq.
  - right. assert (Hne : a <> q).
    { intros Heq. apply path_eqb_eq in Heq. rewrite Heq in Haq. discriminate Haq. }
    specialize (Hclosed a (proj2 (in_proper_prefixes a q) (conj Ha Hne))).
    destruct (listed entries a) as [[|] |]; try discriminate Hclosed. reflexivity.
Qed.





Lemma well_formed_prepared fs p :
  well_formed fs -> well_formed (snd (prepare_environment (APath p) fs)).
Proof.
  intros Hwf. unfold prepare_environment, fs_bind, Path_exists.
  destruct (fs p) as [[|] |] eqn:Hp; cbn [is_present].
  - unfold shutil_rmtree. rewrite Hp. exact Hwf.
  - unfold shutil_rmtree. rewrite Hp. unfold Path_mkdir_parents.
    rewrite is_prefix_refl.
    destruct (existsb _ (proper_prefixes p)) eqn:Hex; cbn [snd].
    + apply well_formed_rmtree. exact Hwf.
    + apply (well_formed_mkdir (fun q => if is_prefix p q then None else fs q) p).
      * apply well_formed_rmtree. exact Hwf.
      * cbv beta. rewrite is_prefix_refl. reflexivity.
      * exact Hex.
  - unfold fs_ret, Path_mkdir_parents. rewrite Hp.
    destruct (existsb _ (proper_prefixes p)) eqn:Hex; cbn [snd].
    + exact Hwf.
    + apply well_formed_mkdir; assumption.
Qed.







(** X15.  In a well-formed file system with a regular file at
    [base_path] or above it, [prepare_environment] raises
    [NotADirectoryError] and the file system is as it was. *)
Theorem prepare_environment_stops_at_file fs p a :
  well_formed fs ->
  is_prefix a p = true ->
  fs a = Some File ->
  prepare_environment (APath p) fs = (inr NotADirectoryError, fs).
Proof.
  intros Hwf Ha Hfile.
  unfold prepare_environment, fs_bind, Path_exists.
  destruct (fs p) as [[|] |] eqn:Hp; cbn [is_present].
  - unfold shutil_rmtree. rewrite Hp. reflexivity.
  - exfalso. destruct (Hwf a p Ha) as [Heq | Hdir].
    + rewrite Hp. discriminate.
    + rewrite Heq, Hp in Hfile. discriminate Hfile.
    + rewrite Hfile in Hdir. discriminate Hdir.
  - unfold fs_ret, Path_mkdir_parents. rewrite Hp.
    assert (Hex : existsb (fun a => is_file (fs a)) (proper_prefixes p) = true).
    { apply existsb_exists. exists a. split.
      - apply in_proper_prefixes. split; [exact Ha |].
        intros ->. rewrite Hp in Hfile. discriminate Hfile.
      - rewrite Hfile. reflexivity. }
    rewrite Hex. reflexivity.
Qed.


Lemma prepare_environment_stops_at_file_witness :
  is_prefix ["tmp"; "notes.txt"] ["tmp"; "notes.txt"; "articles"] = true /\
  listed sample_tree ["tmp"; "notes.txt"] = Some File /\
  prepare_environment (APath ["tmp"; "notes.txt"; "articles"]) (listed sample_tree)
    = (inr NotADirectoryError, listed sample_tree).
Proof.
  split; [reflexivity |]. split; [reflexivity |].
  apply (prepare_environment_stops_at_file (listed sample_tree)
           ["tmp"; "notes.txt"; "articles"] ["tmp"; "notes.txt"]).
  - apply closed_listing_well_formed. reflexivity.
  - reflexivity.
  - reflexivity.
Defined.

(** X16.  Whatever its argument and however it ends,
    [prepare_environment] leaves a well-formed file system well-formed. *)
Theorem prepare_environment_keeps_well_formed base_path fs :
  well_formed fs -> well_formed (snd (prepare_environment base_path fs)).
Proof.
  intros Hwf. destruct base_path as [p | s].
  - apply well_formed_prepared. exact Hwf.
  - exact Hwf.
Qed.

Lemma prepare_environment_keeps_well_formed_witness :
  well_formed (listed sample_tree) /\
  well_formed (snd (prepare_environment (APath ["tmp"; "articles"]) (listed sample_tree))).
Proof.
  split; [apply closed_listing_well_formed; reflexivity |].
  apply (prepare_environment_keeps_well_formed (APath ["tmp"; "articles"])
           (listed sample_tree)).
  apply closed_listing_well_formed. reflexivity.
Defined.


